(** * PowersBioStrikes web: schema, policies and client widgets

    A shallow embedding of the parts of the repository that carry behaviour:

    - [supabase/create_catalysts_table.sql]: the [catalysts] table, its
      row-level-security policies and the [calendar_catalysts] view;
    - the Supabase setup script: the [catalyst_research] table and its
      [UNIQUE(ticker, catalyst_date, catalyst_event)] constraint;
    - the waitlist script: the [handle_new_user] trigger function, the
      [UPDATE] of the existing profiles and the [approved_members] view;
    - [js/main.js]: [isValidEmail], [storeEmail], [storeFoundingMember],
      [updateSpotsRemaining], the stats ticker and the email forms;
    - [js/news-component.js]: [timeAgo], [renderNews], [init],
      [getTickerNews], [getAlerts];
    - the Supabase configuration script: the [pbsAuth] wrapper.

    SQL tables are lists of records (row order and duplicates are visible),
    [NULL] is [None], dates are day numbers, JavaScript values are a small
    inductive type, and effects are explicit state passing. The definitions
    come first, one module per source file; the properties follow. *)

From Stdlib Require Import ZArith Lia Bool Sorted.
From stdpp Require Import base option list strings gmap pretty sorting.

Open Scope Z_scope.

(** ** SQL preliminaries *)

(** A nullable column: [None] is SQL [NULL]. *)
Abbreviation nullable := option (only parsing).

(** A [DATE] is the number of days since a fixed epoch; [a - b] on dates is
    the integer number of days between them, as in PostgreSQL. *)
Definition date := Z.

(** [DECIMAL(p,2)] columns hold hundredths. *)
Definition decimal2 := Z.

(** A [TIMESTAMPTZ], in microseconds. *)
Definition timestamptz := Z.

(** SQL's three-valued [x = y] on nullable booleans. *)
Definition sql_eq_bool (x y : nullable bool) : nullable bool :=
  match x, y with
  | Some a, Some b => Some (Bool.eqb a b)
  | _, _ => None
  end.

(** A [WHERE] or [USING] expression keeps a row only when it is true;
    [NULL] counts as not true. *)
Definition sql_is_true (v : nullable bool) : bool :=
  match v with
  | Some true => true
  | _ => false
  end.

(** ** supabase/create_catalysts_table.sql *)

Module Catalysts.

(** [CREATE TABLE catalysts]. *)
Record row := {
  id : Z;
  ticker : string;
  catalyst_date : date;
  catalyst_event : string;
  drug_name : nullable string;
  indication : nullable string;
  company_name : nullable string;
  event_type : nullable string;
  stage : nullable string;
  is_binary : nullable bool;
  is_milestone : nullable bool;
  is_phase1 : nullable bool;
  is_initiation : nullable bool;
  is_submission : nullable bool;
  is_big_mover : nullable bool;
  mover_score : nullable decimal2;
  success_prob : nullable decimal2;
  upside_pct : nullable decimal2;
  downside_pct : nullable decimal2;
  is_orphan : nullable bool;
  is_fast_track : nullable bool;
  is_breakthrough : nullable bool;
  is_priority_review : nullable bool;
  is_accelerated : nullable bool;
  is_rmat : nullable bool;
  is_first_in_class : nullable bool;
  is_best_in_class : nullable bool;
  critical_unmet_need : nullable bool;
  cont_score : nullable decimal2;
  cont_rating : nullable string;
  has_crl_history : nullable bool;
  crl_count : nullable Z;
  mcap_millions : nullable decimal2;
  short_interest_pct : nullable decimal2;
  source : nullable string;
  confidence : nullable string;
  is_public : nullable bool;
  created_at : nullable timestamptz;
  updated_at : nullable timestamptz
}.

Definition table := list row.

(** *** Row level security *)

(** The roles a Supabase request runs as. *)
Inductive role := anon | authenticated | service_role.

Definition role_eqb (a b : role) : bool :=
  match a, b with
  | anon, anon | authenticated, authenticated
  | service_role, service_role => true
  | _, _ => false
  end.

Inductive command := SELECT | INSERT | UPDATE | DELETE | ALL.

Definition command_covers (policy_cmd cmd : command) : bool :=
  match policy_cmd, cmd with
  | ALL, _ => true
  | SELECT, SELECT | INSERT, INSERT | UPDATE, UPDATE | DELETE, DELETE => true
  | _, _ => false
  end.

(** [CREATE POLICY name ON catalysts FOR cmd TO roles USING (e)
    WITH CHECK (c)]. A policy without [TO] is granted to [PUBLIC], that
    is to every role: [pol_roles = None]. *)
Record policy := {
  pol_name : string;
  pol_cmd : command;
  pol_roles : option (list role);
  pol_using : row -> nullable bool;
  pol_check : option (row -> nullable bool)
}.

Definition public_catalysts_viewable : policy := {|
  pol_name := "Public catalysts are viewable by everyone";
  pol_cmd := SELECT;
  pol_roles := None;
  pol_using := fun r => sql_eq_bool (is_public r) (Some true);
  pol_check := None
|}.

Definition authenticated_view_all : policy := {|
  pol_name := "Authenticated users can view all catalysts";
  pol_cmd := SELECT;
  pol_roles := Some [authenticated];
  pol_using := fun _ => Some true;
  pol_check := None
|}.

Definition service_role_manage : policy := {|
  pol_name := "Service role can manage catalysts";
  pol_cmd := ALL;
  pol_roles := Some [service_role];
  pol_using := fun _ => Some true;
  pol_check := Some (fun _ => Some true)
|}.

(** The policies of the script, in the order they are created. *)
Definition policies : list policy :=
  [public_catalysts_viewable; authenticated_view_all; service_role_manage].

Definition policy_applies (p : policy) (who : role) (cmd : command) : bool :=
  command_covers (pol_cmd p) cmd &&
  match pol_roles p with
  | None => true
  | Some rs => existsb (role_eqb who) rs
  end.

(** [ALTER TABLE catalysts ENABLE ROW LEVEL SECURITY]: a row is visible to
    a command when some applicable (permissive) policy's [USING] is true
    of it; with no applicable policy nothing is visible. *)
Definition row_visible (who : role) (cmd : command) (r : row) : bool :=
  existsb (fun p => policy_applies p who cmd && sql_is_true (pol_using p r))
          policies.

(** [SELECT * FROM catalysts] as role [who]. *)
Definition select (who : role) (t : table) : table :=
  List.filter (row_visible who SELECT) t.

(** *** The calendar view *)

(** A row of [calendar_catalysts]: the selected columns of [catalysts] and
    the three computed ones. *)
Record calendar_row := {
  v_id : Z;
  v_ticker : string;
  v_catalyst_date : date;
  v_catalyst_event : string;
  v_drug_name : nullable string;
  v_indication : nullable string;
  v_company_name : nullable string;
  v_event_type : nullable string;
  v_stage : nullable string;
  v_is_binary : nullable bool;
  v_is_milestone : nullable bool;
  v_is_phase1 : nullable bool;
  v_is_initiation : nullable bool;
  v_is_submission : nullable bool;
  v_is_big_mover : nullable bool;
  v_mover_score : nullable decimal2;
  v_success_prob : nullable decimal2;
  v_upside_pct : nullable decimal2;
  v_downside_pct : nullable decimal2;
  v_is_orphan : nullable bool;
  v_is_fast_track : nullable bool;
  v_is_breakthrough : nullable bool;
  v_is_priority_review : nullable bool;
  v_is_accelerated : nullable bool;
  v_is_rmat : nullable bool;
  v_is_first_in_class : nullable bool;
  v_is_best_in_class : nullable bool;
  v_critical_unmet_need : nullable bool;
  v_cont_score : nullable decimal2;
  v_cont_rating : nullable string;
  v_has_crl_history : nullable bool;
  v_crl_count : nullable Z;
  v_mcap_millions : nullable decimal2;
  v_short_interest_pct : nullable decimal2;
  v_is_public : nullable bool;
  days_until : Z;
  date_display : string;
  weekday : string
}.

(** [ORDER BY catalyst_date ASC], as an insertion sort (rows of one date
    keep their order). *)
Fixpoint insert_by_date (r : row) (sorted : list row) : list row :=
  match sorted with
  | [] => [r]
  | x :: rest =>
      if catalyst_date r <? catalyst_date x
      then r :: sorted
      else x :: insert_by_date r rest
  end.

Definition order_by_date (t : list row) : list row :=
  foldr insert_by_date [] t.

Section View.
(** PostgreSQL's [TO_CHAR(date, format)] is a built-in of the database. *)
Variable TO_CHAR : date -> string -> string.
(** [CURRENT_DATE] at the time the view is queried. *)
Variable CURRENT_DATE : date.

Definition calendar_select (r : row) : calendar_row := {|
  v_id := id r;
  v_ticker := ticker r;
  v_catalyst_date := catalyst_date r;
  v_catalyst_event := catalyst_event r;
  v_drug_name := drug_name r;
  v_indication := indication r;
  v_company_name := company_name r;
  v_event_type := event_type r;
  v_stage := stage r;
  v_is_binary := is_binary r;
  v_is_milestone := is_milestone r;
  v_is_phase1 := is_phase1 r;
  v_is_initiation := is_initiation r;
  v_is_submission := is_submission r;
  v_is_big_mover := is_big_mover r;
  v_mover_score := mover_score r;
  v_success_prob := success_prob r;
  v_upside_pct := upside_pct r;
  v_downside_pct := downside_pct r;
  v_is_orphan := is_orphan r;
  v_is_fast_track := is_fast_track r;
  v_is_breakthrough := is_breakthrough r;
  v_is_priority_review := is_priority_review r;
  v_is_accelerated := is_accelerated r;
  v_is_rmat := is_rmat r;
  v_is_first_in_class := is_first_in_class r;
  v_is_best_in_class := is_best_in_class r;
  v_critical_unmet_need := critical_unmet_need r;
  v_cont_score := cont_score r;
  v_cont_rating := cont_rating r;
  v_has_crl_history := has_crl_history r;
  v_crl_count := crl_count r;
  v_mcap_millions := mcap_millions r;
  v_short_interest_pct := short_interest_pct r;
  v_is_public := is_public r;
  days_until := catalyst_date r - CURRENT_DATE;
  date_display := TO_CHAR (catalyst_date r) "Mon DD, YYYY";
  weekday := TO_CHAR (catalyst_date r) "Day"
|}.

(** [WHERE catalyst_date >= CURRENT_DATE]. *)
Definition calendar_where (r : row) : bool :=
  CURRENT_DATE <=? catalyst_date r.

(** [CREATE OR REPLACE VIEW calendar_catalysts AS SELECT ... FROM
    catalysts WHERE ... ORDER BY ...]. *)
Definition calendar_catalysts (t : table) : list calendar_row :=
  map calendar_select (order_by_date (List.filter calendar_where t)).
End View.

(** *** The write side of the policies *)

(** The expression a policy checks a new row with: its [WITH CHECK], or
    its [USING] when it has none. *)
Definition policy_check (p : policy) : row -> nullable bool :=
  default (pol_using p) (pol_check p).

(** A row may be written by [cmd] (the row of an [INSERT], the new version
    of a row in an [UPDATE]) when some applicable policy's check is true of
    it; the rows an [UPDATE] or [DELETE] may touch are the ones
    [row_visible] to that command. *)
Definition row_accepted (who : role) (cmd : command) (r : row) : bool :=
  existsb (fun p => policy_applies p who cmd && sql_is_true (policy_check p r))
          policies.

(** The commands that write. *)
Definition writes : list command := [INSERT; UPDATE; DELETE].

(** Rows by ascending date. *)
Definition date_le (a b : row) : Prop := catalyst_date a <= catalyst_date b.

End Catalysts.

(** ** The Supabase setup script: [catalyst_research]

    The script's policies on this table are [USING (true)] and [WITH CHECK
    (true)] for every role and command: row level security rejects no
    statement, and what is left to stop one are the table's constraints. *)

Module CatalystResearch.

Section Table.
(** The carrier of the [REAL] columns; nothing here computes with them. *)
Variable real : Type.

(** The columns of [catalyst_research] outside the key. *)
Record details := {
  drug_name : nullable string;
  indication : nullable string;
  mcap_millions : nullable real;
  peak_revenue_millions : nullable real;
  cash_runway_months : nullable Z;
  has_revenue : nullable Z;
  active_atm : nullable Z;
  recent_shelf : nullable Z;
  short_interest_pct : nullable real;
  days_to_cover : nullable real;
  is_breakthrough : nullable Z;
  is_accelerated : nullable Z;
  is_rmat : nullable Z;
  is_fast_track : nullable Z;
  is_priority_review : nullable Z;
  is_orphan : nullable Z;
  is_first_in_class : nullable Z;
  is_best_in_class : nullable Z;
  is_me_too : nullable Z;
  competitors_approved : nullable Z;
  insider_signal : nullable string;
  management_record : nullable string;
  prior_results : nullable string;
  biomarker_selected : nullable Z;
  critical_unmet_need : nullable Z;
  single_indication_only : nullable Z;
  incremental_improvement : nullable Z;
  market_skepticism : nullable Z;
  options_activity : nullable string;
  price_change_60d_pct : nullable real;
  data_completeness_pct : nullable real;
  research_notes : nullable string;
  trade_analysis_json : nullable string;
  trade_analysis_date : nullable string;
  is_leap_play : nullable Z;
  drug_type : nullable string;
  submission_type : nullable string;
  has_priority_review_potential : nullable Z;
  estimated_nda_filing_months : nullable Z;
  estimated_pdufa_date : nullable string;
  leap_notes : nullable string;
  created_at : nullable timestamptz;
  updated_at : nullable timestamptz
}.

(** The [DEFAULT]s of these columns; a column without one defaults to
    [NULL]. [NOW] is the transaction's time. *)
Definition column_defaults (NOW : timestamptz) : details := {|
  drug_name := None;
  indication := None;
  mcap_millions := None;
  peak_revenue_millions := None;
  cash_runway_months := None;
  has_revenue := Some 0;
  active_atm := Some 0;
  recent_shelf := Some 0;
  short_interest_pct := None;
  days_to_cover := None;
  is_breakthrough := Some 0;
  is_accelerated := Some 0;
  is_rmat := Some 0;
  is_fast_track := Some 0;
  is_priority_review := Some 0;
  is_orphan := Some 0;
  is_first_in_class := Some 0;
  is_best_in_class := Some 0;
  is_me_too := Some 0;
  competitors_approved := None;
  insider_signal := None;
  management_record := None;
  prior_results := None;
  biomarker_selected := Some 0;
  critical_unmet_need := Some 0;
  single_indication_only := Some 0;
  incremental_improvement := Some 0;
  market_skepticism := Some 0;
  options_activity := None;
  price_change_60d_pct := None;
  data_completeness_pct := None;
  research_notes := None;
  trade_analysis_json := None;
  trade_analysis_date := None;
  is_leap_play := Some 0;
  drug_type := None;
  submission_type := None;
  has_priority_review_potential := Some 0;
  estimated_nda_filing_months := None;
  estimated_pdufa_date := None;
  leap_notes := None;
  created_at := Some NOW;
  updated_at := Some NOW
|}.

(** A stored row: [id SERIAL PRIMARY KEY] and the three [TEXT NOT NULL]
    columns are never [NULL] in the table. *)
Record row := {
  id : Z;
  ticker : string;
  catalyst_date : string;
  catalyst_event : string;
  rest : details
}.

(** The values a statement proposes for a row, before the constraints
    are checked: any of them may be [NULL]. *)
Record tuple := {
  t_id : nullable Z;
  t_ticker : nullable string;
  t_catalyst_date : nullable string;
  t_catalyst_event : nullable string;
  t_rest : details
}.

(** What an [INSERT] gives for [id]: nothing (the [SERIAL] default,
    [nextval] of the sequence) or a value. *)
Inductive id_input := id_default | id_value (v : nullable Z).

Record insert_values := {
  i_id : id_input;
  i_ticker : nullable string;
  i_catalyst_date : nullable string;
  i_catalyst_event : nullable string;
  i_rest : details
}.

(** The table and the sequence behind [id SERIAL]. *)
Record state := {
  rows : list row;
  id_seq : Z
}.

(** After [CREATE TABLE]: no rows, the first [nextval] is 1. *)
Definition created : state := {| rows := []; id_seq := 1 |}.

(** The errors a statement on this table can end in: a [NOT NULL]
    column given [NULL], a unique index hit, a value that does not fit
    [INTEGER] ("integer out of range"), and a [nextval] on a sequence that
    has reached its maximum. *)
Inductive sql_error :=
| not_null_violation (column : string)
| unique_violation (constraint : string)
| numeric_value_out_of_range
| sequence_generator_limit_exceeded.

Inductive result (A : Type) :=
| Ok (a : A)
| Error (e : sql_error).
Arguments Ok {A} a.
Arguments Error {A} e.

Definition pkey : string := "catalyst_research_pkey".
Definition triple_key : string :=
  "catalyst_research_ticker_catalyst_date_catalyst_event_key".

(** [INTEGER] is 32 bits wide, and so is [id SERIAL]; the sequence behind
    it stops at the same maximum. *)
Definition int4_min : Z := -2147483648.
Definition int4_max : Z := 2147483647.

Definition in_int4 (z : Z) : bool := (int4_min <=? z) && (z <=? int4_max).

(** The [INTEGER] columns outside the key. *)
Definition integer_columns (d : details) : list (nullable Z) :=
  [ cash_runway_months d; has_revenue d; active_atm d; recent_shelf d;
    is_breakthrough d; is_accelerated d; is_rmat d; is_fast_track d;
    is_priority_review d; is_orphan d; is_first_in_class d;
    is_best_in_class d; is_me_too d; competitors_approved d;
    biomarker_selected d; critical_unmet_need d; single_indication_only d;
    incremental_improvement d; market_skepticism d; is_leap_play d;
    has_priority_review_potential d; estimated_nda_filing_months d ].

(** Every value given for an [INTEGER] column ([id] and the others) fits
    the type; [NULL] fits any type. *)
Definition integers_fit (i : nullable Z) (d : details) : bool :=
  forallb (fun x => match x with Some z => in_int4 z | None => true end)
          (i :: integer_columns d).

(** The values of a proposed row are converted to the types of their
    columns before any constraint is looked at. *)
Definition check_integers (t : tuple) : result unit :=
  if integers_fit (t_id t) (t_rest t) then Ok tt
  else Error numeric_value_out_of_range.

(** [NOT NULL] on [id], [ticker], [catalyst_date], [catalyst_event]. *)
Definition check_not_null (t : tuple) : result row :=
  match t_id t, t_ticker t, t_catalyst_date t, t_catalyst_event t with
  | None, _, _, _ => Error (not_null_violation "id")
  | _, None, _, _ => Error (not_null_violation "ticker")
  | _, _, None, _ => Error (not_null_violation "catalyst_date")
  | _, _, _, None => Error (not_null_violation "catalyst_event")
  | Some i, Some tk, Some d, Some e =>
      Ok {| id := i; ticker := tk; catalyst_date := d;
            catalyst_event := e; rest := t_rest t |}
  end.

(** The columns of [UNIQUE(ticker, catalyst_date, catalyst_event)]. *)
Definition triple (r : row) : string * string * string :=
  (ticker r, catalyst_date r, catalyst_event r).

Definition same_triple (a b : row) : bool :=
  String.eqb (ticker a) (ticker b) &&
  String.eqb (catalyst_date a) (catalyst_date b) &&
  String.eqb (catalyst_event a) (catalyst_event b).

(** The two unique indexes, checked against the other live rows:
    the primary key first, then the triple. *)
Definition check_unique (r : row) (others : list row) : result unit :=
  if existsb (fun x => id x =? id r) others
  then Error (unique_violation pkey)
  else if existsb (same_triple r) others
  then Error (unique_violation triple_key)
  else Ok tt.

(** The values an [INSERT] gives for the [INTEGER] columns fit the type. *)
Definition values_fit (v : insert_values) : bool :=
  integers_fit (match i_id v with id_default => None | id_value x => x end)
               (i_rest v).

(** The [INSERT] leaves [id] to a sequence that has handed out its last
    value. *)
Definition sequence_exhausted (v : insert_values) (s : state) : bool :=
  match i_id v with
  | id_default => int4_max <? id_seq s
  | id_value _ => false
  end.

(** [INSERT INTO catalyst_research (...) VALUES (...)]. The values given
    are converted to their columns' types first; then the default of [id]
    is taken from the sequence; then the constraints are checked. A
    [nextval] taken for the default is not given back when the statement
    fails. *)
Definition insert (v : insert_values) (s : state) : state * result unit :=
  if negb (values_fit v) then (s, Error numeric_value_out_of_range)
  else if sequence_exhausted v s
  then (s, Error sequence_generator_limit_exceeded)
  else
  let '(i, seq) :=
    match i_id v with
    | id_default => (Some (id_seq s), id_seq s + 1)
    | id_value x => (x, id_seq s)
    end in
  let t := {| t_id := i; t_ticker := i_ticker v;
              t_catalyst_date := i_catalyst_date v;
              t_catalyst_event := i_catalyst_event v;
              t_rest := i_rest v |} in
  match check_not_null t with
  | Error e => ({| rows := rows s; id_seq := seq |}, Error e)
  | Ok r =>
      match check_unique r (rows s) with
      | Error e => ({| rows := rows s; id_seq := seq |}, Error e)
      | Ok _ => ({| rows := rows s ++ [r]; id_seq := seq |}, Ok tt)
      end
  end.

(** [DELETE FROM catalyst_research WHERE w]. *)
Definition delete (w : row -> bool) (s : state) : state * result unit :=
  ({| rows := List.filter (fun r => negb (w r)) (rows s);
      id_seq := id_seq s |}, Ok tt).

(** [UPDATE catalyst_research SET ... WHERE w], row by row: the new
    version of a row is converted to the columns' types and then checked
    against the rows as they stand at that moment ([done] already
    processed, [todo] still to come). *)
Fixpoint update_rows (w : row -> bool) (set : row -> tuple)
    (done todo : list row) : result (list row) :=
  match todo with
  | [] => Ok done
  | r :: todo' =>
      if w r then
        match check_integers (set r) with
        | Error e => Error e
        | Ok _ =>
            match check_not_null (set r) with
            | Error e => Error e
            | Ok r' =>
                match check_unique r' (done ++ todo') with
                | Error e => Error e
                | Ok _ => update_rows w set (done ++ [r']) todo'
                end
            end
        end
      else update_rows w set (done ++ [r]) todo'
  end.

(** A failing row aborts the statement and leaves the table as it was. *)
Definition update (w : row -> bool) (set : row -> tuple) (s : state)
    : state * result unit :=
  match update_rows w set [] (rows s) with
  | Error e => (s, Error e)
  | Ok rs => ({| rows := rs; id_seq := id_seq s |}, Ok tt)
  end.

Inductive statement :=
| INSERT (v : insert_values)
| DELETE (w : row -> bool)
| UPDATE (w : row -> bool) (set : row -> tuple).

Definition exec (st : statement) (s : state) : state * result unit :=
  match st with
  | INSERT v => insert v s
  | DELETE w => delete w s
  | UPDATE w set => update w set s
  end.

(** A script of statements, each in its own transaction. *)
Definition run (script : list statement) (s : state) : state :=
  fold_left (fun s st => fst (exec st s)) script s.

(** The invariant of the table: no two rows share [(ticker, catalyst_date,
    catalyst_event)]. *)
Definition triples_unique (l : list row) : Prop := NoDup (map triple l).

(** The primary key: no two rows share [id]. *)
Definition ids_unique (l : list row) : Prop := NoDup (map id l).

(** Every [id] in the table is below the next value of the sequence. *)
Definition below_sequence (s : state) : Prop :=
  Forall (fun r => id r < id_seq s) (rows s).

(** The [id] an [INSERT] proposes: the next value of the sequence, or the
    value it gives. *)
Definition proposed_id (v : insert_values) (s : state) : nullable Z :=
  match i_id v with
  | id_default => Some (id_seq s)
  | id_value x => x
  end.

(** A statement that leaves [id] to the sequence: an [INSERT] without a
    value for it, an [UPDATE] that does not assign it. *)
Definition leaves_id_alone (st : statement) : Prop :=
  match st with
  | INSERT v => i_id v = id_default
  | DELETE _ => True
  | UPDATE _ set => forall r, t_id (set r) = Some (id r)
  end.

(** Whether a statement was stopped by the unique constraint [c]. *)
Definition stopped_by (c : string) (outcome : result unit) : bool :=
  match outcome with
  | Error (unique_violation c') => String.eqb c c'
  | _ => false
  end.

End Table.

Arguments Ok {A} a.
Arguments triples_unique [real] l.
Arguments ids_unique [real] l.
Arguments below_sequence [real] s.
Arguments proposed_id {real} v s.
Arguments leaves_id_alone {real} st.
Arguments Error {A} e.
Arguments id {real} r.
Arguments ticker {real} r.
Arguments catalyst_date {real} r.
Arguments catalyst_event {real} r.
Arguments rest {real} r.
Arguments t_id {real} t.
Arguments t_ticker {real} t.
Arguments t_catalyst_date {real} t.
Arguments t_catalyst_event {real} t.
Arguments t_rest {real} t.
Arguments i_id {real} i.
Arguments i_ticker {real} i.
Arguments i_catalyst_date {real} i.
Arguments i_catalyst_event {real} i.
Arguments i_rest {real} i.
Arguments rows {real} s.
Arguments id_seq {real} s.
Arguments check_not_null {real} t.
Arguments integer_columns {real} d.
Arguments integers_fit {real} i d.
Arguments check_integers {real} t.
Arguments values_fit {real} v.
Arguments sequence_exhausted {real} v s.
Arguments triple {real} r.
Arguments same_triple {real} a b.
Arguments check_unique {real} r others.
Arguments insert {real} v s.
Arguments delete {real} w s.
Arguments update_rows {real} w set done todo.
Arguments update {real} w set s.
Arguments INSERT {real} v.
Arguments DELETE {real} w.
Arguments UPDATE {real} w set.
Arguments exec {real} st s.
Arguments run {real} script s.

End CatalystResearch.

(** ** The Supabase setup script: the policies *)

Module SetupRls.

Section Policies.
(** The rows of [positions] or of [catalyst_research]: the policies of the
    script do not look at them. *)
Variable row : Type.

Record policy := {
  pol_name : string;
  pol_cmd : Catalysts.command;
  pol_roles : option (list Catalysts.role);
  pol_using : row -> nullable bool;
  pol_check : option (row -> nullable bool)
}.

(** [CREATE POLICY ... ON positions]: none of them has a [TO] clause. *)
Definition positions_policies : list policy :=
  [ {| pol_name := "Public read access for positions";
       pol_cmd := Catalysts.SELECT; pol_roles := None;
       pol_using := fun _ => Some true; pol_check := None |};
    {| pol_name := "Service role write access for positions";
       pol_cmd := Catalysts.ALL; pol_roles := None;
       pol_using := fun _ => Some true;
       pol_check := Some (fun _ => Some true) |} ].

(** [CREATE POLICY ... ON catalyst_research]. *)
Definition catalyst_research_policies : list policy :=
  [ {| pol_name := "Public read access for catalyst_research";
       pol_cmd := Catalysts.SELECT; pol_roles := None;
       pol_using := fun _ => Some true; pol_check := None |};
    {| pol_name := "Service role write access for catalyst_research";
       pol_cmd := Catalysts.ALL; pol_roles := None;
       pol_using := fun _ => Some true;
       pol_check := Some (fun _ => Some true) |} ].

Definition policy_applies (p : policy) (who : Catalysts.role)
    (cmd : Catalysts.command) : bool :=
  Catalysts.command_covers (pol_cmd p) cmd &&
  match pol_roles p with
  | None => true
  | Some rs => existsb (Catalysts.role_eqb who) rs
  end.

(** As for [catalysts]: the rows a command may read or touch, and the new
    rows it may write. *)
Definition row_visible (policies : list policy) (who : Catalysts.role)
    (cmd : Catalysts.command) (r : row) : bool :=
  existsb (fun p => policy_applies p who cmd && sql_is_true (pol_using p r))
          policies.

Definition row_accepted (policies : list policy) (who : Catalysts.role)
    (cmd : Catalysts.command) (r : row) : bool :=
  existsb (fun p => policy_applies p who cmd &&
                    sql_is_true (default (pol_using p) (pol_check p) r))
          policies.

End Policies.

End SetupRls.

(** ** The waitlist script: [profiles.access_status] and the signup trigger *)

Module Profiles.

(** A [uuid], in its text form. *)
Definition uuid := string.

(** Modelled from the spec: the [profiles] table is created outside the
    scripts at hand. Its columns are the ones the trigger function and the
    auth wrapper name, with [access_status] added by the waitlist script;
    [id] is its primary key, the arbiter of [ON CONFLICT (id)]. *)
Record profile := {
  id : uuid;
  email : nullable string;
  full_name : nullable string;
  access_status : nullable string;
  created_at : nullable timestamptz;
  updated_at : nullable timestamptz
}.

(** The columns of [auth.users] the trigger function reads from [NEW].
    [raw_user_meta_data] is a [jsonb] object, kept as its members with the
    text [->>] gives for each ([NULL] for a JSON null). *)
Record auth_user := {
  u_id : uuid;
  u_email : nullable string;
  raw_user_meta_data : nullable (list (string * nullable string))
}.

(** [j ->> key]. *)
Fixpoint member_text (members : list (string * nullable string))
    (key : string) : nullable string :=
  match members with
  | [] => None
  | (k, v) :: rest => if String.eqb k key then v else member_text rest key
  end.

Definition json_get_text (j : nullable (list (string * nullable string)))
    (key : string) : nullable string :=
  match j with
  | None => None
  | Some members => member_text members key
  end.

(** [COALESCE(x, d)]. *)
Definition COALESCE (x : nullable string) (d : string) : nullable string :=
  match x with
  | Some v => Some v
  | None => Some d
  end.

(** [UPDATE profiles SET access_status = 'approved'
     WHERE access_status IS NULL OR access_status = 'waitlist']. *)
Definition approve_existing (profiles : list profile) : list profile :=
  map (fun p =>
         match access_status p with
         | None => {| id := id p; email := email p; full_name := full_name p;
                      access_status := Some "approved";
                      created_at := created_at p;
                      updated_at := updated_at p |}
         | Some st =>
             if String.eqb st "waitlist"
             then {| id := id p; email := email p; full_name := full_name p;
                     access_status := Some "approved";
                     created_at := created_at p;
                     updated_at := updated_at p |}
             else p
         end) profiles.

(** [public.handle_new_user()], the [AFTER INSERT ON auth.users FOR EACH
    ROW] trigger function: [INSERT INTO public.profiles ... ON CONFLICT
    (id) DO NOTHING; RETURN NEW]. [NOW] is the transaction's time. *)
Definition handle_new_user (NOW : timestamptz) (NEW : auth_user)
    (profiles : list profile) : list profile * auth_user :=
  let proposed := {|
    id := u_id NEW;
    email := u_email NEW;
    full_name :=
      COALESCE (json_get_text (raw_user_meta_data NEW) "full_name") "";
    access_status := Some "waitlist";
    created_at := Some NOW;
    updated_at := None
  |} in
  if existsb (fun p => String.eqb (id p) (u_id NEW)) profiles
  then (profiles, NEW)
  else (profiles ++ [proposed], NEW).

(** The trigger fired once for each inserted [auth.users] row, in order;
    each firing comes with its own [NOW]. *)
Definition fire_all (events : list (timestamptz * auth_user))
    (profiles : list profile) : list profile :=
  fold_left (fun tbl ev => fst (handle_new_user ev.1 ev.2 tbl))
            events profiles.

(** [CREATE OR REPLACE VIEW approved_members AS SELECT * FROM profiles
    WHERE access_status IN ('admin', 'approved')]. *)
Definition approved_members (profiles : list profile) : list profile :=
  List.filter
    (fun p =>
       match access_status p with
       | Some st => String.eqb st "admin" || String.eqb st "approved"
       | None => false
       end) profiles.

(** *** Vocabulary for the properties *)

(** Whether [profiles] has a row for an id, and the rows it has for it. *)
Definition has_profile (u : uuid) (profiles : list profile) : bool :=
  existsb (fun p => String.eqb (id p) u) profiles.

Definition rows_of (u : uuid) (profiles : list profile) : list profile :=
  List.filter (fun p => String.eqb (id p) u) profiles.

(** The statuses the migration turns into ['approved']. *)
Definition awaiting (p : profile) : bool :=
  match access_status p with
  | None => true
  | Some st => String.eqb st "waitlist"
  end.

End Profiles.

(** ** JavaScript preliminaries *)

(** A JavaScript string is a sequence of UTF-16 code units. *)
Definition code_unit := N.
Definition js_string := list code_unit.

(** The code units of an ASCII literal. *)
Definition lit (s : string) : js_string :=
  map Ascii.N_of_ascii (String.list_ascii_of_string s).

(** ** js/main.js *)

Module MainJs.

(** *** The regular expressions [isValidEmail] needs

    A pattern is a sequence of terms; a term is an assertion, an atom, or
    an atom under the greedy quantifier [+]. *)

Inductive class_atom :=
| class_s                      (* \s *)
| class_char (c : code_unit).

Inductive atom :=
| pattern_char (c : code_unit)             (* a literal or escaped character *)
| negated_class (members : list class_atom). (* [^...] *)

Inductive term :=
| caret                        (* ^ *)
| dollar                       (* $ *)
| one (a : atom)
| one_or_more (a : atom).      (* a+ *)

Definition pattern := list term.

(** What [\s] matches: the WhiteSpace and LineTerminator code points. *)
Definition is_white_space (c : code_unit) : bool :=
  ((9 <=? c) && (c <=? 13) || (c =? 32) || (c =? 160) || (c =? 5760) ||
   (8192 <=? c) && (c <=? 8202) || (c =? 8232) || (c =? 8233) ||
   (c =? 8239) || (c =? 8287) || (c =? 12288) || (c =? 65279))%N.

Definition class_atom_matches (m : class_atom) (c : code_unit) : bool :=
  match m with
  | class_s => is_white_space c
  | class_char x => (x =? c)%N
  end.

Definition atom_matches (a : atom) (c : code_unit) : bool :=
  match a with
  | pattern_char x => (x =? c)%N
  | negated_class ms => negb (existsb (fun m => class_atom_matches m c) ms)
  end.

(** The backtracking matcher. [rest] is the input from the current
    position, [e] the index of that position, [k] what must still match.
    [a+] takes as many characters as it can and gives them back one at a
    time until the continuation succeeds. *)
Fixpoint repeat_atom (a : atom) (rest : js_string) (e : nat)
    (k : js_string -> nat -> bool) : bool :=
  match rest with
  | [] => false
  | c :: rest' =>
      atom_matches a c && (repeat_atom a rest' (S e) k || k rest' (S e))
  end.

Fixpoint match_from (p : pattern) (rest : js_string) (e : nat) : bool :=
  match p with
  | [] => true
  | caret :: p' => (e =? 0)%nat && match_from p' rest e
  | dollar :: p' =>
      match rest with
      | [] => match_from p' rest e
      | _ :: _ => false
      end
  | one a :: p' =>
      match rest with
      | [] => false
      | c :: rest' => atom_matches a c && match_from p' rest' (S e)
      end
  | one_or_more a :: p' => repeat_atom a rest e (match_from p')
  end.

(** [RegExp.prototype.test] without the [g] and [y] flags: try every start
    index from 0 on. *)
Fixpoint search (p : pattern) (rest : js_string) (e : nat) : bool :=
  match_from p rest e ||
  match rest with
  | [] => false
  | _ :: rest' => search p rest' (S e)
  end.

Definition test (p : pattern) (s : js_string) : bool := search p s 0.

(** The code units of [@] and [.]. *)
Definition commercial_at : code_unit := 64%N.
Definition full_stop : code_unit := 46%N.

(** The class [[^\s@]]. *)
Definition not_space_or_at : atom :=
  negated_class [class_s; class_char commercial_at].

(** [/^[^\s@]+@[^\s@]+\.[^\s@]+$/] *)
Definition emailRegex : pattern :=
  [ caret;
    one_or_more (negated_class [class_s; class_char commercial_at]);
    one (pattern_char commercial_at);
    one_or_more (negated_class [class_s; class_char commercial_at]);
    one (pattern_char full_stop);
    one_or_more (negated_class [class_s; class_char commercial_at]);
    dollar ].

Definition isValidEmail (email : js_string) : bool :=
  test emailRegex email.

(** *** The pattern in words

    What it is for a string to match [^[^\s@]+@[^\s@]+\.[^\s@]+$]: it is
    [a @ b . c] with [a], [b] and [c] non-empty runs of characters that are
    neither white space nor [@]. *)

(** [[^\s@]] *)
Definition plain (c : code_unit) : Prop :=
  is_white_space c = false /\ c <> commercial_at.

(** [[^\s@]+] *)
Definition plain_run (l : js_string) : Prop :=
  l <> [] /\ Forall plain l.

Definition matches_email_pattern (s : js_string) : Prop :=
  exists a b c,
    s = a ++ commercial_at :: b ++ full_stop :: c /\
    plain_run a /\ plain_run b /\ plain_run c.

(** *** Local storage *)

(** An element of the [pbs_waitlist] array. *)
Record waitlist_entry := {
  email : js_string;
  source : js_string;
  timestamp : js_string
}.

(** An element of the [pbs_founding_members] array. *)
Record founding_member := {
  m_name : js_string;
  m_email : js_string;
  tier : js_string;
  signupDate : js_string;
  freeMonthsRemaining : Z;
  status : js_string
}.

(** The two items of [localStorage] the page uses. An item holds the JSON
    text of an array of records, kept here as the array it parses to
    ([JSON.parse] after [JSON.stringify] gives such an array back);
    [None] is an item that was never set: [getItem] returns [null] and
    the code reads ['[]']. *)
Record localStorage := {
  pbs_waitlist : option (list waitlist_entry);
  pbs_founding_members : option (list founding_member)
}.

(** An argument of [console.log]. *)
Inductive logged := log_string (s : js_string) | log_number (n : Z).

Record browser := {
  storage : localStorage;
  console : list (list logged)
}.

Definition js_string_eqb (a b : js_string) : bool := bool_decide (a = b).

(** [storeEmail(email, source)]; [now] is [new Date().toISOString()]. *)
Definition storeEmail (now : js_string) (email0 source0 : js_string)
    (w : browser) : browser :=
  let storedEmails := default [] (pbs_waitlist (storage w)) in
  let isDuplicate :=
    existsb (fun entry => js_string_eqb (email entry) email0) storedEmails in
  let '(storedEmails, storage') :=
    if negb isDuplicate then
      let pushed := storedEmails ++
        [{| email := email0; source := source0; timestamp := now |}] in
      (pushed,
       {| pbs_waitlist := Some pushed;
          pbs_founding_members := pbs_founding_members (storage w) |})
    else (storedEmails, storage w) in
  {| storage := storage';
     console := console w ++
       [ [log_string (lit "Email captured:"); log_string email0;
          log_string (lit "Source:"); log_string source0];
         [log_string (lit "Total waitlist:");
          log_number (Z.of_nat (length storedEmails))] ] |}.

(** [storeFoundingMember(name, email)]. *)
Definition storeFoundingMember (now : js_string) (name0 email0 : js_string)
    (w : browser) : browser :=
  let storedMembers := default [] (pbs_founding_members (storage w)) in
  let isDuplicate :=
    existsb (fun entry => js_string_eqb (m_email entry) email0)
            storedMembers in
  let '(storedMembers, storage') :=
    if negb isDuplicate then
      let pushed := storedMembers ++
        [{| m_name := name0; m_email := email0;
            tier := lit "founding_member"; signupDate := now;
            freeMonthsRemaining := 6; status := lit "active" |}] in
      (pushed,
       {| pbs_waitlist := pbs_waitlist (storage w);
          pbs_founding_members := Some pushed |})
    else (storedMembers, storage w) in
  {| storage := storage';
     console := console w ++
       [ [log_string (lit "Founding member captured:"); log_string name0;
          log_string email0];
         [log_string (lit "Total founding members:");
          log_number (Z.of_nat (length storedMembers))] ] |}.

(** *** Vocabulary for the properties *)

(** The stored waitlist, as [storeEmail] reads it. *)
Definition waitlist (w : browser) : list waitlist_entry :=
  default [] (pbs_waitlist (storage w)).

(** The entries of a list whose email is a given string. *)
Definition entries_with (email0 : js_string) (l : list waitlist_entry)
    : list waitlist_entry :=
  List.filter (fun entry => js_string_eqb (email entry) email0) l.

(** Two calls of [storeEmail] with the same email (the page calls it from
    either form, so the sources and times may differ). *)
Definition storeEmail_twice (now1 now2 email0 source1 source2 : js_string)
    (w : browser) : browser :=
  storeEmail now2 email0 source2 (storeEmail now1 email0 source1 w).

(** The deduplication property read for every stored list: from any list,
    two calls with the same email leave exactly one entry with that email,
    and the second call changes nothing in the storage. *)
Definition storeEmail_twice_claim (w : browser) : Prop :=
  forall now1 now2 email0 source1 source2,
    length (entries_with email0
              (waitlist (storeEmail_twice now1 now2 email0
                           source1 source2 w))) = 1%nat /\
    storage (storeEmail_twice now1 now2 email0 source1 source2 w) =
    storage (storeEmail now1 email0 source1 w).

(** A stored list that holds the same email twice (written by another
    script or an earlier version of the page): [storeEmail] finds the email
    and leaves both entries. *)
Definition stored_twice : browser :=
  let entry := {| email := lit "jb@x.io"; source := lit "hero";
                  timestamp := lit "2026-01-05T10:00:00.000Z" |} in
  {| storage := {| pbs_waitlist := Some [entry; entry];
                   pbs_founding_members := None |};
     console := [] |}.

(** *** A series of calls *)

(** A browser that has stored nothing yet. *)
Definition fresh : browser :=
  {| storage := {| pbs_waitlist := None; pbs_founding_members := None |};
     console := [] |}.

(** One call of [storeEmail]: the time, the email and the form. *)
Record submission := {
  s_now : js_string;
  s_email : js_string;
  s_source : js_string
}.

Definition storeEmails (calls : list submission) (w : browser) : browser :=
  fold_left (fun w c => storeEmail (s_now c) (s_email c) (s_source c) w)
            calls w.

(** The entries of the calls that bring an email not [seen] before, in
    the order of the calls. *)
Fixpoint first_submissions (seen : list js_string) (calls : list submission)
    : list waitlist_entry :=
  match calls with
  | [] => []
  | c :: rest =>
      if bool_decide (s_email c ∈ seen) then first_submissions seen rest
      else {| email := s_email c; source := s_source c;
              timestamp := s_now c |}
           :: first_submissions (seen ++ [s_email c]) rest
  end.

(** *** The founding-member counter *)

(** The stored founding members, as [storeFoundingMember] and
    [updateSpotsRemaining] read them. *)
Definition founding_members (w : browser) : list founding_member :=
  default [] (pbs_founding_members (storage w)).

Definition totalSpots : Z := 100.

(** [updateSpotsRemaining()]: the number it writes into [#spots-remaining]
    when the page has that element. (The width it gives the progress bar
    is a floating point percentage and is left out.) *)
Definition updateSpotsRemaining (w : browser) : Z :=
  let storedMembers := founding_members w in
  Z.max 0 (totalSpots - Z.of_nat (length storedMembers)).

(** *** The stats ticker *)

Inductive stat_type := win | stat | loss.

Record ticker_stat := {
  text : string;
  type : stat_type
}.

(** A double quote, and a [<span class=...>] of the ticker texts. *)
Definition dq : string := String (Ascii.ascii_of_nat 34) EmptyString.

Definition span (classes content : string) : string :=
  "<span class=" +:+ dq +:+ classes +:+ dq +:+ ">" +:+ content +:+ "</span>".

Definition tickerStats : list ticker_stat :=
  [ {| text := "Last trade: " +:+
               span "text-green-400 font-semibold" "INSM +141%";
       type := win |};
    {| text := "Win rate: " +:+ span "text-gold font-semibold" "68.5%";
       type := stat |};
    {| text := "Avg hold: " +:+ span "text-gold font-semibold" "47 days";
       type := stat |};
    {| text := "Recent: " +:+
               span "text-green-400 font-semibold" "CRNX +114%";
       type := win |};
    {| text := "Recent loss: " +:+
               span "text-red-400 font-semibold" "IMVT -75%";
       type := loss |};
    {| text := "Active positions: " +:+ span "text-gold font-semibold" "17";
       type := stat |};
    {| text := "Recent: " +:+
               span "text-green-400 font-semibold" "VRNA +129%";
       type := win |} ].

(** The [.ticker-item] element: its content and the two styles the
    rotation sets. *)
Record ticker_item := {
  innerHTML : string;
  opacity : string;
  transform : string
}.

(** The ticker: [currentTickerIndex], the [.ticker-item] of the
    [.stats-ticker] if it has one, and the [className] of the pulse dot
    beside it if there is one. *)
Record ticker := {
  currentTickerIndex : nat;
  tickerItem : option ticker_item;
  pulse : option string
}.

Definition pulse_colour (t : stat_type) : string :=
  match t with
  | win => "bg-green-400"
  | loss => "bg-red-400"
  | stat => "bg-gold"
  end.

(** [updateTicker()] up to its [setTimeout]: without a [.ticker-item] it
    returns at once; otherwise it fades the item out and sets the timer
    ([true]). *)
Definition updateTicker (t : ticker) : ticker * bool :=
  match tickerItem t with
  | None => (t, false)
  | Some item =>
      ({| currentTickerIndex := currentTickerIndex t;
          tickerItem := Some {| innerHTML := innerHTML item;
                                opacity := "0";
                                transform := "translateY(-10px)" |};
          pulse := pulse t |}, true)
  end.

(** The callback of that timer, 300 ms later: next index, new content, the
    colour of the pulse dot, fade in. *)
Definition updateTicker_timeout (t : ticker) : ticker :=
  let index := (S (currentTickerIndex t) mod length tickerStats)%nat in
  let shown := nth index tickerStats {| text := ""; type := stat |} in
  {| currentTickerIndex := index;
     tickerItem :=
       (fun _ => {| innerHTML := text shown; opacity := "1";
                    transform := "translateY(0)" |}) <$> tickerItem t;
     pulse :=
       (fun _ => "w-2 h-2 rounded-full mr-3 animate-pulse" +:+ " " +:+
                 pulse_colour (type shown)) <$> pulse t |}.

(** One tick of the 3 s interval, with its timer run to the end. *)
Definition rotation (t : ticker) : ticker :=
  match updateTicker t with
  | (t', true) => updateTicker_timeout t'
  | (t', false) => t'
  end.

(** *** The email forms *)

(** [String.prototype.trim]: white space off both ends (the characters
    [\s] matches). *)
Fixpoint trim_start (s : js_string) : js_string :=
  match s with
  | [] => []
  | c :: rest => if is_white_space c then trim_start rest else s
  end.

Definition trim (s : js_string) : js_string :=
  rev (trim_start (rev (trim_start s))).

(** What the submit button shows: its text, or the spinner [<span>]. *)
Inductive button_content :=
| button_text (s : js_string)
| button_spinner.

(** [submitBtn.textContent]. *)
Definition textContent (b : button_content) : js_string :=
  match b with
  | button_text s => s
  | button_spinner => []
  end.

(** A form with its email input and submit button. *)
Record email_form := {
  input_value : js_string;
  input_focused : bool;
  button_disabled : bool;
  button : button_content
}.

(** The page around a form: storage and console, the form, and the calls
    of [showToast(message, type)] so far. *)
Record form_page := {
  page_browser : browser;
  form : email_form;
  toasts : list (string * string)
}.

Definition showToast (message type0 : string) (pg : form_page) : form_page :=
  {| page_browser := page_browser pg; form := form pg;
     toasts := toasts pg ++ [(message, type0)] |}.

(** What the 1 s timer of a submission keeps: the email and the button's
    text. *)
Record pending := {
  pending_email : js_string;
  originalText : js_string
}.

(** The [submit] listener of [handleEmailSubmit(form, formName)], up to
    its [setTimeout]. *)
Definition handleEmailSubmit (pg : form_page) : form_page * option pending :=
  let email0 := trim (input_value (form pg)) in
  if negb (isValidEmail email0) then
    let pg' := showToast "Please enter a valid email address" "error" pg in
    ({| page_browser := page_browser pg';
        form := {| input_value := input_value (form pg');
                   input_focused := true;
                   button_disabled := button_disabled (form pg');
                   button := button (form pg') |};
        toasts := toasts pg' |}, None)
  else
    ({| page_browser := page_browser pg;
        form := {| input_value := input_value (form pg);
                   input_focused := input_focused (form pg);
                   button_disabled := true;
                   button := button_spinner |};
        toasts := toasts pg |},
     Some {| pending_email := email0;
             originalText := textContent (button (form pg)) |}).

(** The callback of that timer. *)
Definition handleEmailSubmit_timeout (now formName : js_string)
    (p : pending) (pg : form_page) : form_page :=
  showToast "Thanks! You're on the list." "success"
    {| page_browser := storeEmail now (pending_email p) formName
                         (page_browser pg);
       form := {| input_value := [];
                  input_focused := input_focused (form pg);
                  button_disabled := false;
                  button := button_text (originalText p) |};
       toasts := toasts pg |}.

(** A submission with its timer run to the end. *)
Definition submitted (now formName : js_string) (pg : form_page)
    : form_page :=
  match handleEmailSubmit pg with
  | (pg', Some p) => handleEmailSubmit_timeout now formName p pg'
  | (pg', None) => pg'
  end.

End MainJs.

(** ** JavaScript values and completions *)

(** The values that JSON text, property reads and the hosted client's
    responses are made of. Numbers are kept as integers, text as [string]. *)
#[warnings="-register-all"]
Inductive value :=
| undefined
| null
| boolean (b : bool)
| number (n : Z)
| str (s : string)
| array (elements : list value)
| object (members : list (string * value)).

Inductive exn :=
| TypeError      (* a property of null or undefined, a call of a non-function,
                    a failed fetch *)
| SyntaxError    (* text that is not JSON *)
| Thrown (v : value).

(** How an evaluation ends: with a value, or with a thrown exception (for an
    [async] function: with a fulfilled or a rejected promise). *)
Inductive completion (A : Type) :=
| normal (a : A)
| throw (e : exn).
Arguments normal {A} a.
Arguments throw {A} e.

(** Sequencing of completions: an [await] of a rejected promise, or a
    throwing expression, ends the function with that exception. *)
Definition and_then {A B} (c : completion A) (f : A -> completion B)
    : completion B :=
  match c with
  | normal a => f a
  | throw e => throw e
  end.

Notation "'await' x 'from' c 'in' f" := (and_then c (fun x => f))
  (at level 100, x name, c at next level, right associativity).

(** [ToBoolean]. *)
Definition truthy (v : value) : bool :=
  match v with
  | undefined | null => false
  | boolean b => b
  | number n => negb (n =? 0)
  | str s => negb (String.eqb s "")
  | array _ | object _ => true
  end.

Definition nullish (v : value) : bool :=
  match v with
  | undefined | null => true
  | _ => false
  end.

(** An own property of an object literal or of a parsed JSON object. *)
Fixpoint own_property (members : list (string * value)) (key : string)
    : value :=
  match members with
  | [] => undefined
  | (k, v) :: rest =>
      if String.eqb k key then v else own_property rest key
  end.

(** The element whose index, counted from [i], is written [key], if any. *)
Fixpoint indexed_from {A} (i : nat) (l : list A) (key : string) : option A :=
  match l with
  | [] => None
  | x :: rest =>
      if String.eqb (pretty (Z.of_nat i)) key then Some x
      else indexed_from (S i) rest key
  end.

Definition indexed {A} (l : list A) (key : string) : option A :=
  indexed_from 0 l key.

(** [v[key]]: a [TypeError] on [null] and [undefined]; own properties
    otherwise ([length] and the indices of arrays and strings included),
    and [undefined] for anything else. Properties inherited from the
    built-in prototypes are left out. *)
Definition get (v : value) (key : string) : completion value :=
  match v with
  | undefined | null => throw TypeError
  | object members => normal (own_property members key)
  | array elements =>
      if String.eqb key "length"
      then normal (number (Z.of_nat (length elements)))
      else normal (default undefined (indexed elements key))
  | str s =>
      if String.eqb key "length"
      then normal (number (Z.of_nat (String.length s)))
      else normal (default undefined
                     ((fun a => str (String a EmptyString)) <$>
                      indexed (String.list_ascii_of_string s) key))
  | boolean _ | number _ => normal undefined
  end.

(** [v?.[key]]. *)
Definition get_optional (v : value) (key : string) : completion value :=
  if nullish v then normal undefined else get v key.

(** [a || b]. *)
Definition or_else (a b : value) : value := if truthy a then a else b.

(** The property names an object has from [Object.prototype] without
    having them itself (ECMAScript, with its Annex B). For these names
    [v[key]] on an object without such an own property is the inherited
    function or accessor, which [get] does not give; for every other name
    it is what [get] gives. *)
Definition Object_prototype : list string :=
  [ "constructor"; "hasOwnProperty"; "isPrototypeOf"; "propertyIsEnumerable";
    "toLocaleString"; "toString"; "valueOf"; "__proto__";
    "__defineGetter__"; "__defineSetter__"; "__lookupGetter__";
    "__lookupSetter__" ].

Definition inherited (key : string) : bool :=
  existsb (String.eqb key) Object_prototype.

(** [v === 'literal']. *)
Definition is_string (v : value) (literal : string) : bool :=
  match v with
  | str s => String.eqb s literal
  | _ => false
  end.

(** [v?.includes('literal')], as a condition: [undefined] (not true) on
    [null] and [undefined], membership on an array, containment on a
    string, and a [TypeError] on anything else, which has no [includes]. *)
Definition includes_optional (v : value) (literal : string)
    : completion bool :=
  match v with
  | undefined | null => normal false
  | array elements => normal (existsb (fun x => is_string x literal) elements)
  | str s =>
      normal (match String.index 0 literal s with
              | Some _ => true
              | None => false
              end)
  | boolean _ | number _ | object _ => throw TypeError
  end.

(** ** js/news-component.js *)

Module NewsComponent.

(** *** [timeAgo] *)

(** The numbers [timeAgo] computes with are integers or [NaN] ([None]).
    A time value is a whole number of milliseconds below 2^53 in absolute
    value, so the differences and quotients below are exact in double
    precision arithmetic and [Math.floor] of them is the integer floor. *)
Definition num := option Z.

Definition minus (a b : num) : num :=
  match a, b with
  | Some x, Some y => Some (x - y)
  | _, _ => None
  end.

(** [Math.floor(a / d)] for a positive constant [d]. *)
Definition floor_div (a : num) (d : Z) : num :=
  match a with
  | Some x => Some (x / d)
  | None => None
  end.

(** [a < n]: false when [a] is [NaN]. *)
Definition less_than (a : num) (n : Z) : bool :=
  match a with
  | Some x => x <? n
  | None => false
  end.

(** [Number::toString]. *)
Definition to_string (a : num) : string :=
  match a with
  | Some x => pretty x
  | None => "NaN"
  end.

(** [timeAgo(dateString)]: [date] is the time value of
    [new Date(dateString)] ([None] for an invalid date), [now] that of
    [new Date()]. *)
Definition timeAgo (date : num) (now : Z) : string :=
  let seconds := floor_div (minus (Some now) date) 1000 in
  if less_than seconds 60 then "just now"
  else if less_than seconds 3600
  then to_string (floor_div seconds 60) +:+ "m ago"
  else if less_than seconds 86400
  then to_string (floor_div seconds 3600) +:+ "h ago"
  else to_string (floor_div seconds 86400) +:+ "d ago".

(** [getSentimentIcon(sentiment)], by the name of the emoji. *)
Inductive icon := chart_increasing | chart_decreasing | heavy_minus.

Definition getSentimentIcon (sentiment : value) : icon :=
  match sentiment with
  | str s =>
      if String.eqb s "positive" then chart_increasing
      else if String.eqb s "negative" then chart_decreasing
      else heavy_minus
  | _ => heavy_minus
  end.

(** *** The widget *)

Record config := {
  dataUrl : string;
  maxItems : Z
}.

(** [NewsComponent.config]. *)
Definition default_config : config :=
  {| dataUrl := "data/news.json"; maxItems := 5 |}.

(** The [options] argument of [init]: each key present or not. *)
Record options := {
  opt_dataUrl : option string;
  opt_maxItems : option Z
}.

(** [{ ...this.config, ...options }]. *)
Definition merge (o : options) : config :=
  {| dataUrl := default (dataUrl default_config) (opt_dataUrl o);
     maxItems := default (maxItems default_config) (opt_maxItems o) |}.

(** What the item template of [renderNews] is filled with. *)
Record news_item := {
  href : value;                 (* item.link *)
  borderClass : string;
  sentiment_icon : icon;
  title : value;
  publisher : value;
  published_ago : string;       (* timeAgo(item.published) *)
  tags : list value             (* the first two tags *)
}.

(** What a container shows: one of the three fixed templates, or the
    list template filled in by [renderNews]. *)
Inductive markup :=
| news_widget_loading
| news_widget_empty (ticker : string)
| news_widget_error
| news_widget (items : list news_item) (ticker : string).

Definition renderLoading : markup := news_widget_loading.
Definition renderEmpty (ticker : string) : markup := news_widget_empty ticker.
Definition renderError : markup := news_widget_error.

(** A line of [console.error]. *)
Inductive error_line :=
| container_not_found (message : string)
| component_error (e : exn).

(** The page: the component's cache, the containers of the document by
    id with their [innerHTML], the URLs fetched so far, the console. *)
Record page := {
  newsData : value;
  document : gmap string markup;
  requests : list string;
  console : list error_line
}.

(** The page as loaded: [newsData: null], nothing fetched. *)
Definition loaded (containers : gmap string markup) : page :=
  {| newsData := null; document := containers; requests := [];
     console := [] |}.

(** State passing with exceptions. *)
Definition M (A : Type) : Type := page -> page * completion A.

Definition ret {A} (a : A) : M A := fun p => (p, normal a).

Definition bind {A B} (m : M A) (f : A -> M B) : M B :=
  fun p =>
    match m p with
    | (p', normal a) => f a p'
    | (p', throw e) => (p', throw e)
    end.

Definition lift {A} (c : completion A) : M A := fun p => (p, c).

Notation "x <- m ;; f" := (bind m (fun x => f))
  (at level 100, m at next level, right associativity).

Definition set_newsData (v : value) : M unit :=
  fun p => ({| newsData := v; document := document p;
               requests := requests p; console := console p |}, normal tt).

Definition set_innerHTML (containerId : string) (m : markup) : M unit :=
  fun p => ({| newsData := newsData p;
               document := <[containerId := m]> (document p);
               requests := requests p; console := console p |}, normal tt).

Definition console_error (l : error_line) : M unit :=
  fun p => ({| newsData := newsData p; document := document p;
               requests := requests p; console := console p ++ [l] |},
            normal tt).

(** [items.slice(0, n)] on an array. *)
Definition slice (items : list value) (n : Z) : list value :=
  if n <? 0
  then take (Z.to_nat (Z.max (Z.of_nat (length items) + n) 0)) items
  else take (Z.to_nat n) items.

(** What the server does with a request. *)
Inductive response :=
| fetch_rejects              (* [fetch] fails: no network, bad URL *)
| json_rejects               (* [response.json()] fails: not JSON *)
| json_body (v : value).     (* [response.json()] gives [v] *)

Section Widget.
(** The answer to the [n]-th request of the page, to a given URL. *)
Variable network : nat -> string -> response.

(** The time value of [new Date(v)]: the parse of a string, [NaN] for what
    is no date. *)
Variable Date_time : value -> num.

(** The time value of [new Date()] while a list is rendered. *)
Variable now : Z.

(** The callback of [items.map] in [renderNews]. *)
Definition render_item (item : value) : completion news_item :=
  await sentiment from get item "sentiment" in
  let isNegative := is_string sentiment "negative" in
  await categories from get item "categories" in
  await isFda from includes_optional categories "fda" in
  await isClinical from includes_optional categories "clinical" in
  let borderClass :=
    if isNegative then "border-red-500"
    else if isFda then "border-green-500"
    else if isClinical then "border-blue-500"
    else "border-gray-700" in
  await item_tags from get item "tags" in
  await tags from
    match or_else item_tags (array []) with
    | array elements => normal (take 2 elements)
    | _ => throw TypeError               (* [slice] or [map] is no function *)
    end in
  await link from get item "link" in
  await title from get item "title" in
  await publisher from get item "publisher" in
  await published from get item "published" in
  normal {| href := link; borderClass := borderClass;
            sentiment_icon := getSentimentIcon sentiment;
            title := title; publisher := publisher;
            published_ago := timeAgo (Date_time published) now;
            tags := tags |}.

Fixpoint render_items (items : list value) : completion (list news_item) :=
  match items with
  | [] => normal []
  | item :: rest =>
      await first from render_item item in
      await others from render_items rest in
      normal (first :: others)
  end.

(** [renderNews(items, ticker, config)]. *)
Definition renderNews (items : list value) (ticker : string) (cfg : config)
    : completion markup :=
  await newsItems from render_items items in
  normal (news_widget newsItems ticker).

(** [const response = await fetch(url); await response.json()]. *)
Definition fetch_json (url : string) : M value :=
  fun p =>
    let p' := {| newsData := newsData p; document := document p;
                 requests := requests p ++ [url];
                 console := console p |} in
    match network (length (requests p)) url with
    | fetch_rejects => (p', throw TypeError)
    | json_rejects => (p', throw SyntaxError)
    | json_body v => (p', normal v)
    end.

(** [if (!this.newsData) { ...; this.newsData = await response.json(); }] *)
Definition ensure_newsData (url : string) : M unit :=
  fun p =>
    if negb (truthy (newsData p))
    then (v <- fetch_json url ;; set_newsData v) p
    else (p, normal tt).

(** [this.newsData.by_ticker?.[ticker] || []] and
    [this.newsData.high_priority || []]. *)
Definition by_ticker_of (ticker : string) : M value :=
  fun p =>
    lift (await by_ticker from get (newsData p) "by_ticker" in
          await found from get_optional by_ticker ticker in
          normal (or_else found (array []))) p.

Definition high_priority_of : M value :=
  fun p =>
    lift (await found from get (newsData p) "high_priority" in
          normal (or_else found (array []))) p.

(** The body of the [try] block of [init]. *)
Definition init_try (containerId ticker : string) (cfg : config) : M unit :=
  _ <- ensure_newsData (dataUrl cfg) ;;
  tickerNews <- by_ticker_of ticker ;;
  len <- lift (get tickerNews "length") ;;
  match len with
  | number 0 => set_innerHTML containerId (renderEmpty ticker)
  | _ =>
      match tickerNews with
      | array items =>
          html <- lift (renderNews (slice items (maxItems cfg)) ticker cfg) ;;
          set_innerHTML containerId html
      | _ => lift (throw TypeError)      (* [slice] or [map] is no function *)
      end
  end.

(** [init(containerId, ticker, options)]. *)
Definition init (containerId ticker : string) (o : options) (p : page)
    : page :=
  match document p !! containerId with
  | None =>
      fst (console_error
             (container_not_found
                ("NewsComponent: Container #" +:+ containerId +:+
                 " not found")) p)
  | Some _ =>
      let cfg := merge o in
      let p1 := fst (set_innerHTML containerId renderLoading p) in
      match init_try containerId ticker cfg p1 with
      | (p2, normal _) => p2
      | (p2, throw error) =>
          fst ((_ <- console_error (component_error error) ;;
                set_innerHTML containerId renderError) p2)
      end
  end.

(** [getTickerNews(ticker)]. *)
Definition getTickerNews (ticker : string) : M value :=
  _ <- ensure_newsData (dataUrl default_config) ;;
  by_ticker_of ticker.

(** [getAlerts()]. *)
Definition getAlerts : M value :=
  _ <- ensure_newsData (dataUrl default_config) ;;
  high_priority_of.

End Widget.

(** *** Vocabulary for the properties *)

(** The fetch or the JSON parse fails. *)
Definition fails (r : response) : Prop :=
  r = fetch_rejects \/ r = json_rejects.

(** A step that fetches nothing. *)
Definition keeps_requests {A} (m : M A) : Prop :=
  forall p, requests (m p).1 = requests p.

(** A step that leaves a part [f] of the page as it is. *)
Definition keeps {A B} (f : page -> B) (m : M A) : Prop :=
  forall p, f (m p).1 = f p.

(** The cache after a request: the parsed body if there is one (truthy or
    not), the old value otherwise. *)
Definition cached (r : response) (old : value) : value :=
  match r with
  | json_body v => v
  | fetch_rejects | json_rejects => old
  end.

(** What the feed [v] has for a ticker: [v.by_ticker?.[ticker]]. *)
Definition ticker_entry (v : value) (ticker : string) : completion value :=
  await by_ticker from get v "by_ticker" in
  get_optional by_ticker ticker.

(** *** A small feed, for the examples *)

(** A feed with two INSM articles; dates are given as time values. *)
Definition feed : value :=
  object
    [("by_ticker",
      object
        [("INSM",
          array
            [object [("title", str "FDA approves"); ("link", str "/a");
                     ("publisher", str "Wire"); ("published", number 1000);
                     ("sentiment", str "positive");
                     ("categories", array [str "fda"; str "clinical"]);
                     ("tags", array [str "PDUFA"; str "NDA"; str "label"])];
             object [("title", str "Trial halted"); ("link", str "/b");
                     ("publisher", str "Wire"); ("published", number 2000);
                     ("sentiment", str "negative");
                     ("categories", array [str "fda"])]])]);
     ("high_priority", array [])].

Definition time_value (v : value) : num :=
  match v with
  | number n => Some n
  | _ => None
  end.

(** The first request fails, the following ones return [feed]. *)
Definition flaky (n : nat) (_ : string) : response :=
  if Nat.eqb n 0 then fetch_rejects else json_body feed.

Definition defaults : options :=
  {| opt_dataUrl := None; opt_maxItems := None |}.

Definition start : page :=
  loaded {[ "stock-news" := news_widget_loading ]}.

End NewsComponent.

(** ** The Supabase configuration script: [pbsAuth] *)

Module PbsAuth.

(** The methods of the hosted client the wrapper calls, each with what
    its promise settles to. The client is the Supabase SDK's. *)
Record client := {
  auth_getUser : completion value;
  auth_getSession : completion value;
  auth_signUp : value -> completion value;
  auth_signInWithPassword : value -> completion value;
  auth_signOut : completion value;
  auth_resetPasswordForEmail : value -> value -> completion value;
  auth_updateUser : value -> completion value;
  auth_onAuthStateChange : (value -> value -> unit) -> value;
  (* from(table).select(columns).eq(column, v).single() *)
  from_select_eq_single : string -> string -> string -> value ->
                          completion value;
  (* from(table).upsert(row) *)
  from_upsert : string -> value -> completion value
}.

(** [{ ...members, key: v }]: an existing key keeps its place. *)
Fixpoint set_property (members : list (string * value)) (key : string)
    (v : value) : list (string * value) :=
  match members with
  | [] => [(key, v)]
  | (k, x) :: rest =>
      if String.eqb k key then (k, v) :: rest
      else (k, x) :: set_property rest key v
  end.

(** [{ ...members, ...v }] for an object [v]; [null] and [undefined]
    spread to nothing. (The index properties a string or an array would
    spread are left out.) *)
Definition spread (members : list (string * value)) (v : value)
    : list (string * value) :=
  match v with
  | object ms => fold_left (fun acc kv => set_property acc kv.1 kv.2) ms members
  | _ => members
  end.

Section Wrapper.
Variable supabaseClient : client.
(** [window.location.origin]. *)
Variable origin : string.
(** [new Date().toISOString()]. *)
Variable now : string.

(** [const { data: { user } } = await ...getUser(); return user;] *)
Definition getUser : completion value :=
  await r from auth_getUser supabaseClient in
  await data from get r "data" in
  await user from get data "user" in
  normal user.

Definition getSession : completion value :=
  await r from auth_getSession supabaseClient in
  await data from get r "data" in
  await session from get data "session" in
  normal session.

(** [const { data, error } = r; return { data, error };] *)
Definition data_error (r : value) : completion value :=
  await data from get r "data" in
  await error from get r "error" in
  normal (object [("data", data); ("error", error)]).

Definition signUp (email password fullName : value) : completion value :=
  await r from auth_signUp supabaseClient
    (object [("email", email); ("password", password);
             ("options",
              object [("data", object [("full_name", fullName)]);
                      ("emailRedirectTo",
                       str (origin +:+ "/auth-callback.html"))])]) in
  data_error r.

Definition signIn (email password : value) : completion value :=
  await r from auth_signInWithPassword supabaseClient
    (object [("email", email); ("password", password)]) in
  data_error r.

(** [const { error } = await ...signOut(); return { error };] *)
Definition signOut : completion value :=
  await r from auth_signOut supabaseClient in
  await error from get r "error" in
  normal (object [("error", error)]).

Definition resetPassword (email : value) : completion value :=
  await r from auth_resetPasswordForEmail supabaseClient email
    (object [("redirectTo", str (origin +:+ "/reset-password.html"))]) in
  data_error r.

Definition updatePassword (newPassword : value) : completion value :=
  await r from auth_updateUser supabaseClient
    (object [("password", newPassword)]) in
  data_error r.

(** [const session = await this.getSession(); return !!session;] *)
Definition isAuthenticated : completion value :=
  await session from getSession in
  normal (boolean (truthy session)).

Definition onAuthStateChange (callback : value -> value -> unit) : value :=
  auth_onAuthStateChange supabaseClient
    (fun event session => callback event session).

Definition getProfile (userId : value) : completion value :=
  await r from from_select_eq_single supabaseClient
    "profiles" "*" "id" userId in
  data_error r.

(** [upsert({ id: userId, ...updates, updated_at: ... })]. *)
Definition updateProfile (userId updates : value) : completion value :=
  await r from from_upsert supabaseClient "profiles"
    (object (set_property (spread [("id", userId)] updates)
                          "updated_at" (str now))) in
  data_error r.

End Wrapper.

(** *** Vocabulary for the properties *)

(** A result pair [{ data, error }]. *)
Definition is_result_pair (v : value) : Prop :=
  exists data error, v = object [("data", data); ("error", error)].

(** An operation returns a result pair, and does not throw. *)
Definition returns_result_pair (c : completion value) : Prop :=
  exists v, c = normal v /\ is_result_pair v.

(** The operations the claim names, with their arguments. *)
Inductive operation :=
| op_getUser
| op_getSession
| op_signUp (email password fullName : value)
| op_signIn (email password : value)
| op_signOut
| op_resetPassword (email : value)
| op_updatePassword (newPassword : value)
| op_isAuthenticated
| op_getProfile (userId : value)
| op_updateProfile (userId updates : value).

Definition call (c : client) (origin now : string) (op : operation)
    : completion value :=
  match op with
  | op_getUser => getUser c
  | op_getSession => getSession c
  | op_signUp email password fullName => signUp c origin email password fullName
  | op_signIn email password => signIn c email password
  | op_signOut => signOut c
  | op_resetPassword email => resetPassword c origin email
  | op_updatePassword newPassword => updatePassword c newPassword
  | op_isAuthenticated => isAuthenticated c
  | op_getProfile userId => getProfile c userId
  | op_updateProfile userId updates => updateProfile c now userId updates
  end.

(** Every operation returns a result pair (and so does not throw). *)
Definition every_operation_returns_a_pair (c : client) : Prop :=
  forall origin now op, returns_result_pair (call c origin now op).

(** The operations that hand the client's [{ data, error }] on. *)
Definition hands_on_pair (op : operation) : bool :=
  match op with
  | op_signUp _ _ _ | op_signIn _ _ | op_resetPassword _
  | op_updatePassword _ | op_getProfile _ | op_updateProfile _ _ => true
  | op_getUser | op_getSession | op_signOut | op_isAuthenticated => false
  end.

(** A call of the client that settles to a response object. *)
Definition responds (r : completion value) : Prop :=
  exists members, r = normal (object members).

(** The same, with an object in the response's [data] slot. *)
Definition responds_with_data (r : completion value) : Prop :=
  exists members inner,
    r = normal (object members) /\
    own_property members "data" = object inner.

(** A client every call of which settles to a response object. *)
Definition client_responds (c : client) : Prop :=
  responds_with_data (auth_getUser c) /\
  responds_with_data (auth_getSession c) /\
  (forall x, responds (auth_signUp c x)) /\
  (forall x, responds (auth_signInWithPassword c x)) /\
  responds (auth_signOut c) /\
  (forall x y, responds (auth_resetPasswordForEmail c x y)) /\
  (forall x, responds (auth_updateUser c x)) /\
  (forall t cols col x, responds (from_select_eq_single c t cols col x)) /\
  (forall t x, responds (from_upsert c t x)).

(** What the other operations return. *)
Definition returns_error_only (r : completion value) : Prop :=
  exists error, r = normal (object [("error", error)]).

Definition returns_boolean (r : completion value) : Prop :=
  exists b, r = normal (boolean b).

(** The bare [slot] of the [data] of the client's response. *)
Definition returns_data_slot (slot : string) (response r : completion value)
    : Prop :=
  exists members inner,
    response = normal (object members) /\
    own_property members "data" = object inner /\
    r = normal (own_property inner slot).

(** A signed-in session: every call of the client answers
    [{ data: { user, session }, error: null }]. *)
Definition signed_in : client :=
  let user := object [("id", str "9f2e"); ("email", str "jb@x.io")] in
  let session := object [("access_token", str "t"); ("user", user)] in
  let response :=
    normal (object [("data", object [("user", user); ("session", session)]);
                    ("error", null)]) in
  {| auth_getUser := response;
     auth_getSession := response;
     auth_signUp := fun _ => response;
     auth_signInWithPassword := fun _ => response;
     auth_signOut := response;
     auth_resetPasswordForEmail := fun _ _ => response;
     auth_updateUser := fun _ => response;
     auth_onAuthStateChange := fun _ => object [];
     from_select_eq_single := fun _ _ _ _ => response;
     from_upsert := fun _ _ => response |}.

(** The row [updateProfile] hands to [upsert]:
    [{ id: userId, ...updates, updated_at: now }]. *)
Definition profile_row (now : string) (userId updates : value)
    : list (string * value) :=
  set_property (spread [("id", userId)] updates) "updated_at" (str now).

(** A client every call of which throws [e] (rejects with it). *)
Definition client_throws (c : client) (e : exn) : Prop :=
  auth_getUser c = throw e /\
  auth_getSession c = throw e /\
  (forall x, auth_signUp c x = throw e) /\
  (forall x, auth_signInWithPassword c x = throw e) /\
  auth_signOut c = throw e /\
  (forall x y, auth_resetPasswordForEmail c x y = throw e) /\
  (forall x, auth_updateUser c x = throw e) /\
  (forall t cols col x, from_select_eq_single c t cols col x = throw e) /\
  (forall t x, from_upsert c t x = throw e).

(** The client with the network down. *)
Definition offline : client :=
  {| auth_getUser := throw TypeError;
     auth_getSession := throw TypeError;
     auth_signUp := fun _ => throw TypeError;
     auth_signInWithPassword := fun _ => throw TypeError;
     auth_signOut := throw TypeError;
     auth_resetPasswordForEmail := fun _ _ => throw TypeError;
     auth_updateUser := fun _ => throw TypeError;
     auth_onAuthStateChange := fun _ => object [];
     from_select_eq_single := fun _ _ _ _ => throw TypeError;
     from_upsert := fun _ _ => throw TypeError |}.

End PbsAuth.

(** * Properties *)

(** ** The [catalysts] policies and the calendar view *)

Section CatalystsFacts.
Import Catalysts.

(** What each role's [SELECT] policies come to, row by row. *)
Lemma row_visible_anon (r : row) :
  row_visible anon SELECT r = bool_decide (is_public r = Some true).
Proof.
  unfold row_visible; cbn.
  destruct (is_public r) as [[|]|]; reflexivity.
Qed.

Lemma row_visible_authenticated (r : row) :
  row_visible authenticated SELECT r = true.
Proof.
  unfold row_visible; cbn.
  destruct (sql_is_true _); reflexivity.
Qed.

Lemma filter_all_true {A} (f : A -> bool) (l : list A) :
  (forall x, f x = true) -> List.filter f l = l.
Proof.
  intros Hf; induction l as [|x l IH]; cbn; [reflexivity|].
  rewrite Hf, IH; reflexivity.
Qed.

Lemma filter_pointwise {A} (f g : A -> bool) (l : list A) :
  (forall x, f x = g x) -> List.filter f l = List.filter g l.
Proof.
  intros Hfg; induction l as [|x l IH]; cbn; [reflexivity|].
  rewrite Hfg, IH; reflexivity.
Qed.

(** C1. For a fixed contents [t] of [catalysts], a [SELECT] by an
    anonymous caller returns exactly the rows with [is_public = true]
    (in table order), and a [SELECT] by an authenticated caller returns
    every row of the table. *)
Theorem catalysts_select_by_role (t : table) :
  select anon t =
    List.filter (fun r => bool_decide (is_public r = Some true)) t /\
  select authenticated t = t.
Proof.
  split; unfold select.
  - apply filter_pointwise, row_visible_anon.
  - apply filter_all_true, row_visible_authenticated.
Qed.

(** [ORDER BY] only rearranges rows. *)
Lemma insert_by_date_Forall (P : row -> Prop) (r : row) (l : list row) :
  P r -> Forall P l -> Forall P (insert_by_date r l).
Proof.
  intros Hr Hl; induction Hl as [|x l Hx Hl IH]; cbn.
  - constructor; [assumption | constructor].
  - destruct (catalyst_date r <? catalyst_date x).
    + constructor; [assumption|]. constructor; assumption.
    + constructor; assumption.
Qed.

Lemma order_by_date_Forall (P : row -> Prop) (l : list row) :
  Forall P l -> Forall P (order_by_date l).
Proof.
  induction 1 as [|x l Hx Hl IH]; cbn; [constructor|].
  apply insert_by_date_Forall; assumption.
Qed.

Lemma filter_Forall {A} (f : A -> bool) (l : list A) :
  Forall (fun x => f x = true) (List.filter f l).
Proof.
  induction l as [|x l IH]; cbn; [constructor|].
  destruct (f x) eqn:E; [constructor|]; assumption.
Qed.

(** C2. Whatever the contents of [catalysts] and whatever the current
    date, [calendar_catalysts] holds no row whose [catalyst_date] is
    strictly before the current date. *)
Theorem calendar_catalysts_no_past_row
    (TO_CHAR : date -> string -> string) (CURRENT_DATE : date) (t : table) :
  Forall (fun v => ~ (v_catalyst_date v < CURRENT_DATE))
         (calendar_catalysts TO_CHAR CURRENT_DATE t).
Proof.
  unfold calendar_catalysts.
  apply Forall_map.
  apply order_by_date_Forall.
  eapply Forall_impl; [apply filter_Forall|].
  intros r Hr; unfold calendar_where in Hr; cbn.
  apply Z.leb_le in Hr. lia.
Qed.

End CatalystsFacts.

(** ** The uniqueness triple of [catalyst_research] *)

Section CatalystResearchFacts.
Import CatalystResearch.
Context {real : Type}.
Implicit Types (r x : row real) (s : state real) (l : list (row real)).

Lemma same_triple_spec r x : same_triple r x = true <-> triple r = triple x.
Proof.
  unfold same_triple, triple.
  rewrite !andb_true_iff, !String.eqb_eq. split.
  - intros [[H1 H2] H3]. rewrite H1, H2, H3. reflexivity.
  - intros H. injection H. auto.
Qed.

Lemma existsb_same_triple r l :
  existsb (same_triple r) l = true <-> triple r ∈ map triple l.
Proof.
  rewrite existsb_exists, list_elem_of_fmap. split.
  - intros (x & Hx & Hs). exists x. split.
    + apply same_triple_spec, Hs.
    + apply list_elem_of_In, Hx.
  - intros (x & Hs & Hx). exists x. split.
    + apply list_elem_of_In, Hx.
    + apply same_triple_spec, Hs.
Qed.

(** A tuple that passes both unique indexes has a triple of its own. *)
Lemma check_unique_Ok r l u :
  check_unique r l = Ok u -> triple r ∉ map triple l.
Proof.
  unfold check_unique.
  destruct (existsb (fun x => id x =? id r) l); [discriminate|].
  destruct (existsb (same_triple r) l) eqn:E; [discriminate|].
  intros _ Hin. apply existsb_same_triple in Hin. congruence.
Qed.

(** A tuple whose triple is taken is stopped by one of the two indexes. *)
Lemma check_unique_taken r l :
  triple r ∈ map triple l ->
  exists c, check_unique r l = Error (unique_violation c) /\
            (c = pkey \/ c = triple_key).
Proof.
  intros Hin. apply existsb_same_triple in Hin. unfold check_unique.
  destruct (existsb (fun x => id x =? id r) l).
  - exists pkey. auto.
  - rewrite Hin. exists triple_key. auto.
Qed.

Lemma insert_keeps_unique v s :
  triples_unique (rows s) -> triples_unique (rows (insert v s).1).
Proof.
  intros Hs. unfold insert.
  destruct (negb (values_fit v)); [exact Hs|].
  destruct (sequence_exhausted v s); [exact Hs|].
  destruct (i_id v) as [|i]; cbn zeta;
    (destruct (check_not_null _) as [r|e]; [|exact Hs]);
    (destruct (check_unique r (rows s)) as [u|e] eqn:E; [|exact Hs]);
    cbn; unfold triples_unique; rewrite map_app; cbn;
    apply NoDup_app; (split; [exact Hs|]); (split; [|apply NoDup_singleton]);
    intros k Hk Hk'; apply list_elem_of_singleton in Hk'; subst k;
    exact (check_unique_Ok _ _ _ E Hk).
Qed.

Lemma delete_keeps_unique w s :
  triples_unique (rows s) -> triples_unique (rows (delete w s).1).
Proof.
  unfold triples_unique; cbn. generalize (rows s) as l.
  induction l as [|x l IH]; cbn; [auto|].
  rewrite NoDup_cons. intros [Hx Hl].
  destruct (negb (w x)); cbn; [|auto].
  apply NoDup_cons. split; [|auto].
  intros Hin. apply Hx.
  apply list_elem_of_fmap in Hin as (y & Hy & Hin).
  apply list_elem_of_fmap. exists y. split; [exact Hy|].
  apply list_elem_of_In. apply list_elem_of_In in Hin.
  apply filter_In in Hin. tauto.
Qed.

Lemma update_rows_keeps_unique w set (done todo rs : list (row real)) :
  triples_unique (done ++ todo) ->
  update_rows w set done todo = Ok rs ->
  triples_unique rs.
Proof.
  revert done. induction todo as [|r todo IH]; intros done Hu; cbn.
  - intros [= <-]. rewrite app_nil_r in Hu. exact Hu.
  - assert (Hrest : triples_unique (done ++ todo)).
    { unfold triples_unique in *. rewrite map_app in *. cbn in Hu.
      apply NoDup_app in Hu as (H1 & H2 & H3).
      apply NoDup_cons in H3 as [H3 H4].
      apply NoDup_app. repeat split; [exact H1| |exact H4].
      intros k Hk Hk'. apply (H2 k Hk). right. exact Hk'. }
    destruct (w r).
    + destruct (check_integers (set r)) as [_|e]; [|discriminate].
      destruct (check_not_null (set r)) as [r'|e]; [|discriminate].
      destruct (check_unique r' (done ++ todo)) as [u|e] eqn:E; [|discriminate].
      apply IH. unfold triples_unique in *.
      rewrite <- app_assoc. cbn.
      rewrite map_app. cbn. rewrite <- Permutation_middle.
      apply NoDup_cons. split.
      * rewrite <- map_app. exact (check_unique_Ok _ _ _ E).
      * rewrite <- map_app. exact Hrest.
    + apply IH. rewrite <- app_assoc. exact Hu.
Qed.

Lemma exec_keeps_unique st s :
  triples_unique (rows s) -> triples_unique (rows (exec st s).1).
Proof.
  intros Hs. destruct st as [v|w|w set]; cbn.
  - apply insert_keeps_unique, Hs.
  - apply delete_keeps_unique, Hs.
  - unfold update.
    destruct (update_rows w set [] (rows s)) as [rs|e] eqn:E; cbn; [|exact Hs].
    apply (update_rows_keeps_unique w set [] (rows s)); assumption.
Qed.

Lemma run_keeps_unique script s :
  triples_unique (rows s) -> triples_unique (rows (run script s)).
Proof.
  revert s. induction script as [|st script IH]; intros s Hs; cbn; [exact Hs|].
  apply IH, exec_keeps_unique, Hs.
Qed.

(** C3. An [INSERT] into [catalyst_research] of a row whose
    [(ticker, catalyst_date, catalyst_event)] equals that of a row already
    present fails with a uniqueness violation and leaves the rows as they
    were; hence, whatever statements have run since the table was created,
    no two of its rows share that triple. (The inserted row is one the
    table's types admit: its [INTEGER] values fit 32 bits, and its [id] is
    a value or the next value of a sequence that has one left. A row with
    an [id] of [NULL], a value out of range or no sequence value left is
    turned down before any index is consulted, with the error of that
    kind.) *)
Theorem catalyst_research_triple_unique :
  (forall s (v : insert_values real) r i,
      r ∈ rows s ->
      values_fit v = true ->
      proposed_id v s = Some i ->
      i <= int4_max ->
      i_ticker v = Some (ticker r) ->
      i_catalyst_date v = Some (catalyst_date r) ->
      i_catalyst_event v = Some (catalyst_event r) ->
      exists c,
        (insert v s).2 = Error (unique_violation c) /\
        (c = pkey \/ c = triple_key) /\
        rows (insert v s).1 = rows s) /\
  (forall script : list (statement real),
      NoDup (map triple (rows (run script (created real))))).
Proof.
  split.
  - intros s v r i Hr Hfit Hid Hmax Ht Hd He. unfold insert.
    rewrite Hfit. cbn [negb].
    assert (Hseq : sequence_exhausted v s = false).
    { unfold sequence_exhausted, proposed_id in *.
      destruct (i_id v) as [|x]; [|reflexivity].
      injection Hid as <-. apply Z.ltb_ge, Hmax. }
    rewrite Hseq.
    assert (Hnn :
      match i_id v with
      | id_default => (Some (id_seq s), id_seq s + 1)
      | id_value x => (x, id_seq s)
      end = (Some i, match i_id v with
                     | id_default => id_seq s + 1
                     | id_value _ => id_seq s
                     end)).
    { unfold proposed_id in Hid.
      destruct (i_id v) as [|x]; rewrite Hid; reflexivity. }
    rewrite Hnn. cbn zeta.
    unfold check_not_null; cbn. rewrite Ht, Hd, He.
    set (r' := {| id := i; ticker := ticker r |}).
    destruct (check_unique_taken r' (rows s)) as (c & Hc & Hcc).
    { apply list_elem_of_fmap. exists r. split; [reflexivity | exact Hr]. }
    exists c. rewrite Hc. cbn. auto.
  - intros script. apply run_keeps_unique. cbn. constructor.
Qed.

End CatalystResearchFacts.

(** A table holding one INSM row, and a second [INSERT] of the same event. *)
Lemma catalyst_research_triple_unique_witness :
  let present : CatalystResearch.row unit :=
    {| CatalystResearch.id := 1;
       CatalystResearch.ticker := "INSM";
       CatalystResearch.catalyst_date := "2026-02-17";
       CatalystResearch.catalyst_event := "PDUFA";
       CatalystResearch.rest := CatalystResearch.column_defaults unit 0 |} in
  let s := {| CatalystResearch.rows := [present];
              CatalystResearch.id_seq := 2 |} in
  let v := {| CatalystResearch.i_id := CatalystResearch.id_default;
              CatalystResearch.i_ticker := Some "INSM";
              CatalystResearch.i_catalyst_date := Some "2026-02-17";
              CatalystResearch.i_catalyst_event := Some "PDUFA";
              CatalystResearch.i_rest :=
                CatalystResearch.column_defaults unit 5 |} in
  exists c,
    (CatalystResearch.insert v s).2 =
      CatalystResearch.Error (CatalystResearch.unique_violation c) /\
    (c = CatalystResearch.pkey \/ c = CatalystResearch.triple_key) /\
    CatalystResearch.rows (CatalystResearch.insert v s).1 =
      CatalystResearch.rows s.
Proof.
  intros present s v.
  apply (proj1 (@catalyst_research_triple_unique unit) s v present 2).
  - simpl. left.
  - reflexivity.
  - reflexivity.
  - unfold CatalystResearch.int4_max. lia.
  - reflexivity.
  - reflexivity.
  - reflexivity.
Defined.

(** The same event again with an [id] beyond 32 bits: the value is turned
    down as out of range before any index is consulted. With the sequence
    past its last value, an [INSERT] by default has no [id] to take. *)
Example insert_id_out_of_range :
  let present : CatalystResearch.row unit :=
    {| CatalystResearch.id := 1;
       CatalystResearch.ticker := "INSM";
       CatalystResearch.catalyst_date := "2026-02-17";
       CatalystResearch.catalyst_event := "PDUFA";
       CatalystResearch.rest := CatalystResearch.column_defaults unit 0 |} in
  let s := {| CatalystResearch.rows := [present];
              CatalystResearch.id_seq := 2 |} in
  let v := {| CatalystResearch.i_id :=
                CatalystResearch.id_value (Some 4294967296);
              CatalystResearch.i_ticker := Some "INSM";
              CatalystResearch.i_catalyst_date := Some "2026-02-17";
              CatalystResearch.i_catalyst_event := Some "PDUFA";
              CatalystResearch.i_rest :=
                CatalystResearch.column_defaults unit 5 |} in
  CatalystResearch.insert v s =
  (s, CatalystResearch.Error CatalystResearch.numeric_value_out_of_range).
Proof. reflexivity. Qed.

Example insert_sequence_exhausted :
  let s : CatalystResearch.state unit :=
    {| CatalystResearch.rows := []; CatalystResearch.id_seq := 2147483648 |} in
  let v := {| CatalystResearch.i_id := CatalystResearch.id_default;
              CatalystResearch.i_ticker := Some "INSM";
              CatalystResearch.i_catalyst_date := Some "2026-02-17";
              CatalystResearch.i_catalyst_event := Some "PDUFA";
              CatalystResearch.i_rest :=
                CatalystResearch.column_defaults unit 5 |} in
  CatalystResearch.insert v s =
  (s, CatalystResearch.Error
        CatalystResearch.sequence_generator_limit_exceeded).
Proof. reflexivity. Qed.

Example insert_last_sequence_value :
  let s : CatalystResearch.state unit :=
    {| CatalystResearch.rows := []; CatalystResearch.id_seq := 2147483647 |} in
  let v := {| CatalystResearch.i_id := CatalystResearch.id_default;
              CatalystResearch.i_ticker := Some "INSM";
              CatalystResearch.i_catalyst_date := Some "2026-02-17";
              CatalystResearch.i_catalyst_event := Some "PDUFA";
              CatalystResearch.i_rest :=
                CatalystResearch.column_defaults unit 5 |} in
  (CatalystResearch.insert v s).2 = CatalystResearch.Ok tt /\
  map CatalystResearch.id
      (CatalystResearch.rows (CatalystResearch.insert v s).1) = [2147483647].
Proof. split; reflexivity. Qed.

(** ** The signup trigger *)

Section ProfilesFacts.
Import Profiles.

Lemma has_profile_true u profiles :
  has_profile u profiles = true <-> exists p, p ∈ profiles /\ id p = u.
Proof.
  unfold has_profile. rewrite existsb_exists. split.
  - intros (p & Hp & E). exists p. split.
    + apply list_elem_of_In, Hp.
    + apply String.eqb_eq, E.
  - intros (p & Hp & E). exists p. split.
    + apply list_elem_of_In, Hp.
    + apply String.eqb_eq, E.
Qed.

Lemma handle_new_user_present NOW NEW profiles :
  has_profile (u_id NEW) profiles = true ->
  (handle_new_user NOW NEW profiles).1 = profiles.
Proof.
  unfold handle_new_user, has_profile. intros ->. reflexivity.
Qed.

Lemma has_profile_app u l k :
  has_profile u (l ++ k) = has_profile u l || has_profile u k.
Proof. apply existsb_app. Qed.

(** Once the id has a row, further firings for it change nothing. *)
Lemma fire_all_present u events profiles :
  Forall (fun ev => u_id ev.2 = u) events ->
  has_profile u profiles = true ->
  fire_all events profiles = profiles.
Proof.
  intros Hev Hp. induction Hev as [|ev events Hu Hev IH]; cbn; [reflexivity|].
  rewrite handle_new_user_present by (rewrite Hu; exact Hp).
  exact IH.
Qed.

Lemma rows_of_absent u profiles :
  Forall (fun p => id p <> u) profiles -> rows_of u profiles = [].
Proof.
  induction 1 as [|p profiles Hp _ IH]; cbn; [reflexivity|].
  destruct (String.eqb_spec (id p) u); [contradiction | exact IH].
Qed.

Lemma has_profile_absent u profiles :
  Forall (fun p => id p <> u) profiles -> has_profile u profiles = false.
Proof.
  induction 1 as [|p profiles Hp _ IH]; cbn; [reflexivity|].
  destruct (String.eqb_spec (id p) u); [contradiction | exact IH].
Qed.

(** C4. After one or more firings of the new-user trigger for the same
    auth-account id (a new account: [profiles] has no row for the id before
    the first firing), [profiles] holds exactly one row for that id, and
    that row has [access_status = 'waitlist']; and a firing for an id that
    already has a profile row is a no-op. *)
Theorem handle_new_user_idempotent :
  (forall (u : uuid) (events : list (timestamptz * auth_user))
          (profiles : list profile),
      events <> [] ->
      Forall (fun ev => u_id ev.2 = u) events ->
      Forall (fun p => id p <> u) profiles ->
      exists p,
        rows_of u (fire_all events profiles) = [p] /\
        access_status p = Some "waitlist") /\
  (forall NOW NEW (profiles : list profile),
      (exists p, p ∈ profiles /\ id p = u_id NEW) ->
      (handle_new_user NOW NEW profiles).1 = profiles).
Proof.
  split.
  - intros u events profiles Hne Hev Hfresh.
    destruct events as [|[NOW NEW] events]; [contradiction|].
    apply Forall_cons in Hev as [Hu Hev]. cbn in Hu.
    unfold fire_all; cbn [fold_left fst snd].
    fold (fire_all events). unfold handle_new_user.
    fold (has_profile (u_id NEW) profiles).
    rewrite Hu, (has_profile_absent u profiles Hfresh). cbn [fst].
    rewrite (fire_all_present u).
    + eexists. split.
      * unfold rows_of. rewrite List.filter_app.
        fold (rows_of u profiles). rewrite (rows_of_absent u profiles Hfresh).
        cbn. rewrite String.eqb_refl. reflexivity.
      * reflexivity.
    + exact Hev.
    + rewrite has_profile_app. cbn. rewrite String.eqb_refl.
      apply orb_true_iff. right. reflexivity.
  - intros NOW NEW profiles Hp.
    apply handle_new_user_present, has_profile_true, Hp.
Qed.

End ProfilesFacts.

(** Two firings for a new account, between two other users' profiles. *)
Lemma handle_new_user_idempotent_witness :
  let other := {| Profiles.id := "7d1c"; Profiles.email := Some "a@x.io";
                  Profiles.full_name := Some "A";
                  Profiles.access_status := Some "approved";
                  Profiles.created_at := Some 1;
                  Profiles.updated_at := None |} in
  let NEW := {| Profiles.u_id := "9f2e"; Profiles.u_email := Some "b@x.io";
                Profiles.raw_user_meta_data :=
                  Some [("full_name", Some "B")] |} in
  exists p,
    Profiles.rows_of "9f2e"
      (Profiles.fire_all [(5, NEW); (6, NEW)] [other]) = [p] /\
    Profiles.access_status p = Some "waitlist".
Proof.
  intros other NEW.
  apply (proj1 handle_new_user_idempotent "9f2e" [(5, NEW); (6, NEW)] [other]).
  - discriminate.
  - repeat constructor.
  - repeat constructor. simpl. discriminate.
Defined.

(** ** [isValidEmail] *)

Section EmailFacts.
Import MainJs.

Lemma not_space_or_at_plain (c : code_unit) :
  atom_matches not_space_or_at c = true <-> plain c.
Proof.
  unfold plain, not_space_or_at, atom_matches.
  cbn [existsb class_atom_matches].
  rewrite orb_false_r, negb_true_iff, orb_false_iff, N.eqb_neq.
  intuition congruence.
Qed.

Lemma pattern_char_matches (x c : code_unit) :
  atom_matches (pattern_char x) c = true <-> c = x.
Proof. unfold atom_matches. rewrite N.eqb_eq. intuition congruence. Qed.

(** [a+] followed by [k]: some non-empty prefix of the input is made of
    characters of [a], and [k] accepts what follows it. *)
Lemma repeat_atom_spec (a : atom) (k : js_string -> nat -> bool)
    (rest : js_string) (e : nat) :
  repeat_atom a rest e k = true <->
  exists pre post,
    rest = pre ++ post /\ pre <> [] /\
    Forall (fun c => atom_matches a c = true) pre /\
    k post (e + length pre)%nat = true.
Proof.
  revert e. induction rest as [|c rest IH]; intros e; cbn.
  - split; [discriminate|].
    intros (pre & post & Heq & Hne & _).
    destruct pre; [contradiction | discriminate].
  - rewrite andb_true_iff, orb_true_iff, IH. split.
    + intros [Hc [(pre & post & -> & Hne & Hall & Hk) | Hk]].
      * exists (c :: pre), post. repeat split; [discriminate | |].
        -- constructor; assumption.
        -- cbn [length]. replace (e + S (length pre))%nat
             with (S e + length pre)%nat by lia. exact Hk.
      * exists [c], rest. repeat split; [discriminate | |].
        -- constructor; [assumption | constructor].
        -- cbn [length]. replace (e + 1)%nat with (S e) by lia. exact Hk.
    + intros (pre & post & Heq & Hne & Hall & Hk).
      destruct pre as [|c' pre]; [contradiction|].
      cbn in Heq. injection Heq as <- ->.
      apply Forall_cons in Hall as [Hc Hall]. split; [exact Hc|].
      destruct pre as [|c'' pre].
      * right. cbn in Hk. replace (e + 1)%nat with (S e) in Hk by lia.
        exact Hk.
      * left. exists (c'' :: pre), post. repeat split; [discriminate | |].
        -- exact Hall.
        -- cbn [length] in *.
           replace (S e + S (length pre))%nat
             with (e + S (S (length pre)))%nat by lia. exact Hk.
Qed.

Lemma plain_run_spec (l : js_string) :
  l <> [] /\ Forall (fun c => atom_matches not_space_or_at c = true) l <->
  plain_run l.
Proof.
  unfold plain_run. split; intros [Hne Hall]; (split; [exact Hne|]);
    (eapply Forall_impl; [exact Hall|]); intros c; apply not_space_or_at_plain.
Qed.

(** [^] holds at index 0 only: a search from a later index finds nothing. *)
Lemma search_caret_later (p : pattern) (rest : js_string) (e : nat) :
  search (caret :: p) rest (S e) = false.
Proof.
  revert e. induction rest as [|c rest IH]; intros e; cbn; [reflexivity|].
  apply IH.
Qed.

Lemma test_caret (p : pattern) (s : js_string) :
  test (caret :: p) s = match_from p s 0.
Proof.
  unfold test. destruct s as [|c s]; cbn.
  - apply orb_false_r.
  - rewrite search_caret_later. apply orb_false_r.
Qed.

(** The equations of [match_from]. *)
Lemma match_from_one (a : atom) (p : pattern) (rest : js_string) (e : nat) :
  match_from (one a :: p) rest e =
  match rest with
  | [] => false
  | c :: rest' => atom_matches a c && match_from p rest' (S e)
  end.
Proof. reflexivity. Qed.

Lemma match_from_one_or_more (a : atom) (p : pattern) (rest : js_string)
    (e : nat) :
  match_from (one_or_more a :: p) rest e = repeat_atom a rest e (match_from p).
Proof. reflexivity. Qed.

Lemma match_from_dollar (rest : js_string) (e : nat) :
  match_from [dollar] rest e = true <-> rest = [].
Proof. destruct rest; cbn; intuition congruence. Qed.

(** The tail [[^\s@]+$] of the pattern. *)
Lemma match_last_run (rest : js_string) (e : nat) :
  match_from [one_or_more not_space_or_at; dollar] rest e = true <->
  plain_run rest.
Proof.
  rewrite match_from_one_or_more, repeat_atom_spec, <- plain_run_spec. split.
  - intros (pre & post & -> & Hne & Hall & Hk).
    apply match_from_dollar in Hk as ->. rewrite app_nil_r. auto.
  - intros [Hne Hall]. exists rest, []. rewrite app_nil_r.
    split; [reflexivity|]. split; [exact Hne|]. split; [exact Hall|].
    apply match_from_dollar. reflexivity.
Qed.

(** The tail [\.[^\s@]+$]. *)
Lemma match_dot_run (rest : js_string) (e : nat) :
  match_from [one (pattern_char full_stop);
              one_or_more not_space_or_at; dollar] rest e = true <->
  exists c, rest = full_stop :: c /\ plain_run c.
Proof.
  rewrite match_from_one. destruct rest as [|x rest].
  - split; [discriminate | intros (c & [=] & _)].
  - rewrite andb_true_iff, pattern_char_matches, match_last_run. split.
    + intros [-> Hc]. eauto.
    + intros (c & [= -> ->] & Hc). auto.
Qed.

(** The tail [@[^\s@]+\.[^\s@]+$]. *)
Lemma match_at_run_dot_run (rest : js_string) (e : nat) :
  match_from [one (pattern_char commercial_at);
              one_or_more not_space_or_at;
              one (pattern_char full_stop);
              one_or_more not_space_or_at; dollar] rest e = true <->
  exists b c,
    rest = commercial_at :: b ++ full_stop :: c /\ plain_run b /\ plain_run c.
Proof.
  rewrite match_from_one. destruct rest as [|x rest].
  - split; [discriminate | intros (b & c & [=] & _)].
  - rewrite andb_true_iff, pattern_char_matches, match_from_one_or_more,
      repeat_atom_spec.
    split.
    + intros [-> (b & post & -> & Hne & Hall & Hk)].
      apply match_dot_run in Hk as (c & -> & Hc).
      exists b, c. split; [reflexivity|]. split; [|exact Hc].
      apply plain_run_spec. auto.
    + intros (b & c & [= -> ->] & Hb & Hc). split; [reflexivity|].
      exists b, (full_stop :: c). apply plain_run_spec in Hb as [Hne Hall].
      split; [reflexivity|]. split; [exact Hne|]. split; [exact Hall|].
      apply match_dot_run. eauto.
Qed.

(** C5. For every string [s], [isValidEmail(s)] is true if and only if [s]
    matches [^[^\s@]+@[^\s@]+\.[^\s@]+$]: a non-empty run of characters that
    are neither white space nor [@], then [@], then such a run, a dot, and
    such a run to the end. *)
Theorem isValidEmail_iff_pattern (s : js_string) :
  isValidEmail s = true <-> matches_email_pattern s.
Proof.
  unfold isValidEmail, emailRegex, matches_email_pattern.
  rewrite test_caret, match_from_one_or_more, repeat_atom_spec. split.
  - intros (a & post & -> & Hne & Hall & Hk).
    apply match_at_run_dot_run in Hk as (b & c & -> & Hb & Hc).
    exists a, b, c. split; [reflexivity|]. split; [|auto].
    apply plain_run_spec. auto.
  - intros (a & b & c & -> & Ha & Hb & Hc).
    exists a, (commercial_at :: b ++ full_stop :: c).
    apply plain_run_spec in Ha as [Hne Hall].
    split; [reflexivity|]. split; [exact Hne|]. split; [exact Hall|].
    apply match_at_run_dot_run. eauto.
Qed.

End EmailFacts.

(** Some addresses. *)
Example isValidEmail_plain_address :
  MainJs.isValidEmail (lit "jb@powersbiostrikes.com") = true.
Proof. reflexivity. Qed.

Example isValidEmail_no_dot : MainJs.isValidEmail (lit "jb@localhost") = false.
Proof. reflexivity. Qed.

Example isValidEmail_space : MainJs.isValidEmail (lit "j b@x.io") = false.
Proof. reflexivity. Qed.

Example isValidEmail_two_ats : MainJs.isValidEmail (lit "a@b@x.io") = false.
Proof. reflexivity. Qed.

Example isValidEmail_empty_local : MainJs.isValidEmail (lit "@x.io") = false.
Proof. reflexivity. Qed.

Example isValidEmail_dot_first : MainJs.isValidEmail (lit "a@.io") = false.
Proof. reflexivity. Qed.

(** ** [storeEmail] *)

Section StoreEmailFacts.
Import MainJs.

Lemma existsb_entries_with (email0 : js_string) (l : list waitlist_entry) :
  existsb (fun entry => js_string_eqb (email entry) email0) l =
  negb (Nat.eqb (length (entries_with email0 l)) 0).
Proof.
  unfold entries_with. induction l as [|x l IH]; cbn; [reflexivity|].
  destruct (js_string_eqb (email x) email0); cbn; [reflexivity | exact IH].
Qed.

Lemma entries_with_push (email0 source0 now : js_string)
    (l : list waitlist_entry) :
  entries_with email0
    (l ++ [{| email := email0; source := source0; timestamp := now |}]) =
  entries_with email0 l ++
    [{| email := email0; source := source0; timestamp := now |}].
Proof.
  unfold entries_with. rewrite List.filter_app. cbn.
  unfold js_string_eqb. rewrite bool_decide_eq_true_2 by reflexivity.
  reflexivity.
Qed.

(** After one call the email is stored: as often as before if it was there,
    once if it was not. *)
Lemma storeEmail_entries (now email0 source0 : js_string) (w : browser) :
  length (entries_with email0 (waitlist (storeEmail now email0 source0 w))) =
  Nat.max 1 (length (entries_with email0 (waitlist w))).
Proof.
  unfold storeEmail. fold (waitlist w).
  rewrite existsb_entries_with.
  destruct (length (entries_with email0 (waitlist w))) as [|n] eqn:E;
    cbn [Nat.eqb negb].
  - unfold waitlist at 1. cbn [storage pbs_waitlist default from_option id].
    rewrite entries_with_push, length_app, E. reflexivity.
  - unfold waitlist at 1. cbn [storage]. fold (waitlist w).
    rewrite E. reflexivity.
Qed.

(** A call for an email that is stored leaves the storage as it is. *)
Lemma storeEmail_stored (now email0 source0 : js_string) (w : browser) :
  entries_with email0 (waitlist w) <> [] ->
  storage (storeEmail now email0 source0 w) = storage w.
Proof.
  intros Hne. unfold storeEmail. fold (waitlist w).
  rewrite existsb_entries_with.
  destruct (entries_with email0 (waitlist w)); [contradiction|].
  reflexivity.
Qed.

Lemma storeEmail_second_call (now1 now2 email0 source1 source2 : js_string)
    (w : browser) :
  storage (storeEmail_twice now1 now2 email0 source1 source2 w) =
  storage (storeEmail now1 email0 source1 w).
Proof.
  unfold storeEmail_twice. apply storeEmail_stored.
  intros Hnil. apply (f_equal length) in Hnil.
  rewrite storeEmail_entries in Hnil. cbn in Hnil. lia.
Qed.

(** C6, as stated, fails on a stored list that already holds the email
    twice: both entries stay. *)
Lemma storeEmail_twice_counterexample : ~ storeEmail_twice_claim stored_twice.
Proof.
  intros H.
  destruct (H (lit "2026-01-06T10:00:00.000Z") (lit "2026-01-06T10:00:05.000Z")
              (lit "jb@x.io") (lit "hero") (lit "footer")) as [Hlen _].
  vm_compute in Hlen. discriminate.
Qed.

(** C6, amended. From a stored list that holds at most one entry with the
    email, two calls of [storeEmail] with that email leave exactly one
    entry with it; from any stored list, the second call changes nothing in
    the storage. *)
Theorem storeEmail_twice_one_entry
    (now1 now2 email0 source1 source2 : js_string) (w : browser) :
  ((length (entries_with email0 (waitlist w)) <= 1)%nat ->
   length (entries_with email0
             (waitlist (storeEmail_twice now1 now2 email0
                          source1 source2 w))) = 1%nat) /\
  storage (storeEmail_twice now1 now2 email0 source1 source2 w) =
  storage (storeEmail now1 email0 source1 w).
Proof.
  split; [|apply storeEmail_second_call].
  intros Hle. unfold storeEmail_twice. rewrite !storeEmail_entries. lia.
Qed.

End StoreEmailFacts.

(** The same address from the hero form, then from the footer form, into
    an empty storage. *)
Lemma storeEmail_twice_one_entry_witness :
  let w := {| MainJs.storage := {| MainJs.pbs_waitlist := None;
                                   MainJs.pbs_founding_members := None |};
              MainJs.console := [] |} in
  let twice :=
    MainJs.storeEmail_twice (lit "2026-01-06T10:00:00.000Z")
      (lit "2026-01-06T10:00:05.000Z") (lit "jb@x.io")
      (lit "hero") (lit "footer") w in
  length (MainJs.entries_with (lit "jb@x.io") (MainJs.waitlist twice)) = 1%nat
  /\
  MainJs.storage twice =
  MainJs.storage (MainJs.storeEmail (lit "2026-01-06T10:00:00.000Z")
                    (lit "jb@x.io") (lit "hero") w).
Proof.
  intros w twice.
  pose proof (storeEmail_twice_one_entry
                (lit "2026-01-06T10:00:00.000Z")
                (lit "2026-01-06T10:00:05.000Z") (lit "jb@x.io")
                (lit "hero") (lit "footer") w) as [Hone Hsame].
  split; [apply Hone; simpl; lia | exact Hsame].
Defined.

(** ** [timeAgo] *)

Section TimeAgoFacts.
Import NewsComponent.

(** [timeAgo] of a valid date, by the whole seconds elapsed. *)
Lemma timeAgo_seconds (date now : Z) :
  timeAgo (Some date) now =
  let seconds := (now - date) / 1000 in
  if seconds <? 60 then "just now"
  else if seconds <? 3600 then pretty (seconds / 60) +:+ "m ago"
  else if seconds <? 86400 then pretty (seconds / 3600) +:+ "h ago"
  else pretty (seconds / 86400) +:+ "d ago".
Proof. reflexivity. Qed.

(** Whole seconds against a bound in seconds, in milliseconds. *)
Lemma seconds_lt (ms n : Z) : ms / 1000 < n <-> ms < n * 1000.
Proof.
  split; intros H.
  - apply Z.nle_gt. intros Hge. apply Z.nle_gt in H. apply H.
    apply Z.div_le_lower_bound; lia.
  - apply Z.div_lt_upper_bound; lia.
Qed.

Lemma seconds_ltb (ms n : Z) : (ms / 1000 <? n) = (ms <? n * 1000).
Proof.
  destruct (Z.ltb_spec (ms / 1000) n) as [H|H];
    destruct (Z.ltb_spec ms (n * 1000)) as [H'|H']; try reflexivity.
  - apply seconds_lt in H. lia.
  - apply seconds_lt in H'. lia.
Qed.

(** C7. [timeAgo] of a timestamp 90 seconds in the past is "1m ago", of one
    7200 seconds in the past "2h ago", of one 0 seconds in the past
    "just now"; in general: under 60 s "just now", under 1 h the whole
    minutes elapsed, under 1 d the whole hours, otherwise the whole days,
    all by integer division without rounding. Times are in milliseconds. *)
Theorem timeAgo_buckets :
  (forall now, timeAgo (Some (now - 90 * 1000)) now = "1m ago") /\
  (forall now, timeAgo (Some (now - 7200 * 1000)) now = "2h ago") /\
  (forall now, timeAgo (Some now) now = "just now") /\
  (forall date now,
      let elapsed := now - date in
      (elapsed < 60 * 1000 -> timeAgo (Some date) now = "just now") /\
      (60 * 1000 <= elapsed < 3600 * 1000 ->
       timeAgo (Some date) now = pretty (elapsed / (60 * 1000)) +:+ "m ago") /\
      (3600 * 1000 <= elapsed < 86400 * 1000 ->
       timeAgo (Some date) now =
       pretty (elapsed / (3600 * 1000)) +:+ "h ago") /\
      (86400 * 1000 <= elapsed ->
       timeAgo (Some date) now =
       pretty (elapsed / (86400 * 1000)) +:+ "d ago")).
Proof.
  split; [|split; [|split]].
  - intros now. rewrite timeAgo_seconds.
    replace (now - (now - 90 * 1000)) with 90000 by lia. reflexivity.
  - intros now. rewrite timeAgo_seconds.
    replace (now - (now - 7200 * 1000)) with 7200000 by lia. reflexivity.
  - intros now. rewrite timeAgo_seconds.
    replace (now - now) with 0 by lia. reflexivity.
  - intros date now elapsed. rewrite timeAgo_seconds. fold elapsed.
    cbv zeta. rewrite !seconds_ltb, !Z.div_div by lia.
    rewrite !(Z.mul_comm 1000).
    repeat split; intros H.
    + destruct (Z.ltb_spec elapsed (60 * 1000)); [reflexivity | lia].
    + destruct (Z.ltb_spec elapsed (60 * 1000)); [lia|].
      destruct (Z.ltb_spec elapsed (3600 * 1000)); [reflexivity | lia].
    + destruct (Z.ltb_spec elapsed (60 * 1000)); [lia|].
      destruct (Z.ltb_spec elapsed (3600 * 1000)); [lia|].
      destruct (Z.ltb_spec elapsed (86400 * 1000)); [reflexivity | lia].
    + destruct (Z.ltb_spec elapsed (60 * 1000)); [lia|].
      destruct (Z.ltb_spec elapsed (3600 * 1000)); [lia|].
      destruct (Z.ltb_spec elapsed (86400 * 1000)); [lia | reflexivity].
Qed.

(** C9. For every timestamp strictly in the future (the elapsed time is
    negative), [timeAgo] returns "just now": the negative number of seconds
    falls into the first bucket, and no minutes, hours or days are
    printed. *)
Theorem timeAgo_future (date now : Z) :
  now < date -> timeAgo (Some date) now = "just now".
Proof.
  intros H. rewrite timeAgo_seconds. cbv zeta.
  rewrite seconds_ltb.
  destruct (Z.ltb_spec (now - date) (60 * 1000)); [reflexivity | lia].
Qed.

End TimeAgoFacts.

(** 59 minutes and 59.999 seconds ago: 59 whole minutes. *)
Lemma timeAgo_buckets_witness :
  NewsComponent.timeAgo (Some 1767225600000) (1767225600000 + 3599999) =
  "59m ago".
Proof.
  apply (proj1 (proj2 (proj2 (proj2 (proj2 timeAgo_buckets))
                         1767225600000 (1767225600000 + 3599999)))).
  simpl. lia.
Defined.

(** An article dated one millisecond after the reader's clock. *)
Lemma timeAgo_future_witness :
  NewsComponent.timeAgo (Some 1767225600001) 1767225600000 = "just now".
Proof.
  apply (timeAgo_future 1767225600001 1767225600000). lia.
Defined.

(** An invalid date compares false with every bound.  *)
Example timeAgo_invalid_date :
  NewsComponent.timeAgo None 1767225600000 = "NaNd ago".
Proof. reflexivity. Qed.

(** ** The news cache after a failed fetch *)

Section NewsFacts.
Import NewsComponent.
Variable network : nat -> string -> response.
Variable Date_time : value -> num.
Variable now : Z.

Lemma keeps_requests_bind {A B} (m : M A) (f : A -> M B) :
  keeps_requests m -> (forall a, keeps_requests (f a)) ->
  keeps_requests (bind m f).
Proof.
  intros Hm Hf p. unfold bind. specialize (Hm p).
  destruct (m p) as [p' [a|e]]; cbn in *; [|exact Hm].
  rewrite Hf. exact Hm.
Qed.

Lemma keeps_requests_lift {A} (c : completion A) : keeps_requests (lift c).
Proof. intros p. reflexivity. Qed.

Lemma keeps_requests_set_innerHTML containerId m :
  keeps_requests (set_innerHTML containerId m).
Proof. intros p. reflexivity. Qed.

Lemma keeps_requests_console_error l : keeps_requests (console_error l).
Proof. intros p. reflexivity. Qed.

Lemma keeps_requests_by_ticker_of ticker : keeps_requests (by_ticker_of ticker).
Proof. intros p. reflexivity. Qed.

(** What follows the fetch in the [try] block fetches nothing. *)
Lemma keeps_requests_render containerId ticker cfg :
  keeps_requests
    (tickerNews <- by_ticker_of ticker ;;
     len <- lift (get tickerNews "length") ;;
     match len with
     | number 0 => set_innerHTML containerId (renderEmpty ticker)
     | _ =>
         match tickerNews with
         | array items =>
             html <- lift (renderNews Date_time now
                             (slice items (maxItems cfg)) ticker cfg) ;;
             set_innerHTML containerId html
         | _ => lift (throw TypeError)
         end
     end).
Proof.
  apply keeps_requests_bind; [apply keeps_requests_by_ticker_of|].
  intros tickerNews.
  apply keeps_requests_bind; [apply keeps_requests_lift|].
  intros len.
  assert (Hshow : keeps_requests
            (match tickerNews with
             | array items =>
                 html <- lift (renderNews Date_time now
                                 (slice items (maxItems cfg)) ticker cfg) ;;
                 set_innerHTML containerId html
             | _ => lift (throw TypeError)
             end)).
  { destruct tickerNews; try apply keeps_requests_lift.
    apply keeps_requests_bind; [apply keeps_requests_lift|].
    intros html. apply keeps_requests_set_innerHTML. }
  destruct len as [| |b|n|t|els|ms]; try exact Hshow.
  destruct n; [apply keeps_requests_set_innerHTML | exact Hshow | exact Hshow].
Qed.

(** With an empty cache, [ensure_newsData] sends one request, whatever the
    answer. *)
Lemma ensure_newsData_null url p :
  newsData p = null ->
  requests (ensure_newsData network url p).1 = requests p ++ [url].
Proof.
  intros Hnull. unfold ensure_newsData. rewrite Hnull. cbn [truthy negb].
  unfold bind, fetch_json.
  destruct (network (length (requests p)) url); reflexivity.
Qed.

(** A failing answer leaves the cache empty and throws. *)
Lemma ensure_newsData_fails url p :
  newsData p = null ->
  fails (network (length (requests p)) url) ->
  exists e,
    ensure_newsData network url p =
      ({| newsData := null; document := document p;
          requests := requests p ++ [url]; console := console p |},
       throw e).
Proof.
  intros Hnull Hfail. unfold ensure_newsData. rewrite Hnull.
  cbn [truthy negb]. unfold bind, fetch_json. rewrite Hnull.
  destruct Hfail as [-> | ->]; eauto.
Qed.

(** [init] on an existing container with an empty cache fetches. *)
Lemma init_fetches containerId ticker o p :
  newsData p = null ->
  is_Some (document p !! containerId) ->
  requests (init network Date_time now containerId ticker o p) =
  requests p ++ [dataUrl (merge o)].
Proof.
  intros Hnull [m Hm]. unfold init. rewrite Hm.
  set (p1 := (set_innerHTML containerId renderLoading p).1).
  assert (Htry : requests (init_try network Date_time now containerId ticker
                             (merge o) p1).1 =
                 requests p ++ [dataUrl (merge o)]).
  { unfold init_try, bind at 1.
    pose proof (ensure_newsData_null (dataUrl (merge o)) p1 Hnull) as He.
    destruct (ensure_newsData network (dataUrl (merge o)) p1) as [p2 [[]|e]];
      cbn [fst] in *; [|exact He].
    rewrite keeps_requests_render. exact He. }
  destruct (init_try network Date_time now containerId ticker (merge o) p1)
    as [p2 [[]|e]]; cbn [fst] in Htry; [exact Htry|].
  rewrite keeps_requests_bind; [exact Htry | |].
  - apply keeps_requests_console_error.
  - intros _. apply keeps_requests_set_innerHTML.
Qed.

(** [getTickerNews] with an empty cache fetches. *)
Lemma getTickerNews_fetches ticker p :
  newsData p = null ->
  requests (getTickerNews network ticker p).1 =
  requests p ++ [dataUrl default_config].
Proof.
  intros Hnull. unfold getTickerNews, bind.
  pose proof (ensure_newsData_null (dataUrl default_config) p Hnull) as He.
  destruct (ensure_newsData network (dataUrl default_config) p)
    as [p2 [[]|e]]; cbn [fst] in *; [|exact He].
  rewrite keeps_requests_by_ticker_of. exact He.
Qed.

(** C10. If the first fetch of the news feed, or the parse of its JSON,
    fails, [newsData] remains [null] and the container shows the error
    state; a later call of [init] (on an existing container) or of
    [getTickerNews] sends the request again instead of serving the
    failure from the cache. *)
Theorem news_failure_is_not_cached containerId ticker o p :
  newsData p = null ->
  is_Some (document p !! containerId) ->
  fails (network (length (requests p)) (dataUrl (merge o))) ->
  let p' := init network Date_time now containerId ticker o p in
  newsData p' = null /\
  document p' !! containerId = Some renderError /\
  requests p' = requests p ++ [dataUrl (merge o)] /\
  (forall containerId2 ticker2 o2,
      is_Some (document p' !! containerId2) ->
      requests (init network Date_time now containerId2 ticker2 o2 p') =
      requests p' ++ [dataUrl (merge o2)]) /\
  (forall ticker2,
      requests (getTickerNews network ticker2 p').1 =
      requests p' ++ [dataUrl default_config]).
Proof.
  intros Hnull Hc Hfail p'.
  assert (Hp' : exists e,
    p' = {| newsData := null;
            document := <[containerId := renderError]>
                          (<[containerId := renderLoading]> (document p));
            requests := requests p ++ [dataUrl (merge o)];
            console := console p ++ [component_error e] |}).
  { subst p'. destruct Hc as [m Hm]. unfold init. rewrite Hm.
    set (p1 := (set_innerHTML containerId renderLoading p).1).
    destruct (ensure_newsData_fails (dataUrl (merge o)) p1 Hnull Hfail)
      as [e He].
    exists e. unfold init_try, bind. rewrite He. reflexivity. }
  destruct Hp' as [e Hp'].
  assert (Hnull' : newsData p' = null) by (rewrite Hp'; reflexivity).
  assert (Hdoc : document p' !! containerId = Some renderError)
    by (rewrite Hp'; apply lookup_insert_eq).
  repeat split.
  - exact Hnull'.
  - exact Hdoc.
  - apply init_fetches; assumption.
  - intros c2 t2 o2 Hc2. apply init_fetches; assumption.
  - intros t2. apply getTickerNews_fetches; assumption.
Qed.

End NewsFacts.

(** A page with one container; the first request fails to parse, later
    ones return an empty feed. *)
Lemma news_failure_is_not_cached_witness :
  let network := fun (n : nat) (_ : string) =>
    if Nat.eqb n 0 then NewsComponent.json_rejects
    else NewsComponent.json_body (object [("by_ticker", object [])]) in
  let Date_time := fun v : value =>
    match v with
    | number n => Some n
    | _ => None
    end in
  let now := 1767225600000 in
  let o := {| NewsComponent.opt_dataUrl := None;
              NewsComponent.opt_maxItems := Some 3 |} in
  let p := NewsComponent.loaded
             {[ "stock-news" := NewsComponent.news_widget [] "" ]} in
  let p' :=
    NewsComponent.init network Date_time now "stock-news" "INSM" o p in
  NewsComponent.newsData p' = null /\
  NewsComponent.document p' !! "stock-news" =
    Some NewsComponent.renderError /\
  NewsComponent.requests p' =
    NewsComponent.requests p ++
    [NewsComponent.dataUrl (NewsComponent.merge o)] /\
  (forall containerId2 ticker2 o2,
      is_Some (NewsComponent.document p' !! containerId2) ->
      NewsComponent.requests
        (NewsComponent.init network Date_time now
           containerId2 ticker2 o2 p') =
      NewsComponent.requests p' ++
      [NewsComponent.dataUrl (NewsComponent.merge o2)]) /\
  (forall ticker2,
      NewsComponent.requests
        (NewsComponent.getTickerNews network ticker2 p').1 =
      NewsComponent.requests p' ++
      [NewsComponent.dataUrl NewsComponent.default_config]).
Proof.
  intros network Date_time now o p.
  apply (news_failure_is_not_cached network Date_time now
           "stock-news" "INSM" o p).
  - reflexivity.
  - simpl. rewrite lookup_singleton_eq. eexists. reflexivity.
  - right. reflexivity.
Defined.

(** ** The auth wrapper *)

Section PbsAuthFacts.
Import PbsAuth.

(** C8, as stated, fails on a signed-in session: [getUser] returns the user
    object itself, not a pair. *)
Lemma pbsAuth_result_pair_counterexample :
  ~ every_operation_returns_a_pair signed_in.
Proof.
  intros H. destruct (H "https://powersbiostrikes.com" "" op_getUser)
    as (v & Hv & data & error & Hpair).
  cbn in Hv. injection Hv as <-. discriminate Hpair.
Qed.

Lemma data_error_responds (r : completion value) :
  responds r -> returns_result_pair (and_then r data_error).
Proof.
  intros [members ->]. cbn. eexists. split; [reflexivity|].
  eexists _, _. reflexivity.
Qed.

(** The wrapper has no handler: what the client throws, the caller gets. *)
Lemma signIn_rejected (c : client) (email password : value) (e : exn) :
  (forall x, auth_signInWithPassword c x = throw e) ->
  signIn c email password = throw e.
Proof. intros H. unfold signIn. rewrite H. reflexivity. Qed.

(** A response without a [data] object makes the destructuring in
    [getUser] throw. *)
Lemma getUser_null_data (c : client) :
  auth_getUser c = normal (object [("data", null); ("error", str "offline")]) ->
  getUser c = throw TypeError.
Proof. intros H. unfold getUser. rewrite H. reflexivity. Qed.

(** C8, amended. [signUp], [signIn], [resetPassword], [updatePassword],
    [getProfile] and [updateProfile] return a result pair [(data, error)];
    [signOut] returns the error slot alone, [getUser] and [getSession] the
    bare user or session of the response's data, [isAuthenticated] a
    boolean; and none of them throws, as long as every call of the hosted
    client settles to a response object (with an object in its data slot
    for [getUser] and [getSession]). *)
Theorem pbsAuth_results (c : client) (origin now : string) :
  client_responds c ->
  (forall op, hands_on_pair op = true ->
              returns_result_pair (call c origin now op)) /\
  returns_error_only (call c origin now op_signOut) /\
  returns_data_slot "user" (auth_getUser c) (call c origin now op_getUser) /\
  returns_data_slot "session" (auth_getSession c)
                    (call c origin now op_getSession) /\
  returns_boolean (call c origin now op_isAuthenticated).
Proof.
  intros (HgetUser & HgetSession & HsignUp & HsignIn & HsignOut & Hreset &
          Hupdate & Hselect & Hupsert).
  split; [|split; [|split; [|split]]].
  - intros op Hop. destruct op; try discriminate Hop; cbn [call].
    + apply data_error_responds, HsignUp.
    + apply data_error_responds, HsignIn.
    + apply data_error_responds, Hreset.
    + apply data_error_responds, Hupdate.
    + apply data_error_responds, Hselect.
    + apply data_error_responds, Hupsert.
  - destruct HsignOut as [members Hr]. cbn [call]. unfold signOut.
    rewrite Hr. cbn. eexists. reflexivity.
  - destruct HgetUser as (members & inner & Hr & Hdata).
    exists members, inner. split; [exact Hr|]. split; [exact Hdata|].
    cbn [call]. unfold getUser. rewrite Hr. cbn. rewrite Hdata. reflexivity.
  - destruct HgetSession as (members & inner & Hr & Hdata).
    exists members, inner. split; [exact Hr|]. split; [exact Hdata|].
    cbn [call]. unfold getSession. rewrite Hr. cbn. rewrite Hdata.
    reflexivity.
  - destruct HgetSession as (members & inner & Hr & Hdata).
    cbn [call]. unfold isAuthenticated, getSession. rewrite Hr. cbn.
    rewrite Hdata. cbn. eexists. reflexivity.
Qed.

End PbsAuthFacts.

(** The signed-in client: [signIn] returns a pair, [getUser] the user. *)
Lemma pbsAuth_results_witness :
  let c := PbsAuth.signed_in in
  let origin := "https://powersbiostrikes.com" in
  let now := "2026-01-06T10:00:00.000Z" in
  (forall op, PbsAuth.hands_on_pair op = true ->
              PbsAuth.returns_result_pair (PbsAuth.call c origin now op)) /\
  PbsAuth.returns_error_only (PbsAuth.call c origin now PbsAuth.op_signOut) /\
  PbsAuth.returns_data_slot "user" (PbsAuth.auth_getUser c)
    (PbsAuth.call c origin now PbsAuth.op_getUser) /\
  PbsAuth.returns_data_slot "session" (PbsAuth.auth_getSession c)
    (PbsAuth.call c origin now PbsAuth.op_getSession) /\
  PbsAuth.returns_boolean
    (PbsAuth.call c origin now PbsAuth.op_isAuthenticated).
Proof.
  intros c origin now.
  apply (pbsAuth_results c origin now).
  unfold c, PbsAuth.client_responds, PbsAuth.responds_with_data,
    PbsAuth.responds.
  simpl. repeat split; intros; eauto.
Defined.

(** ** The widget on a small feed *)

Section NewsExamples.
Import NewsComponent.

(** The first [init] meets the failing request and shows the error state;
    the next use of the cache fetches again and fills it. *)
Example retry_after_failure :
  (ensure_newsData flaky "data/news.json"
     (init flaky time_value 7201000 "stock-news" "INSM" defaults start)).1
  = {| newsData := feed;
       document := {[ "stock-news" := news_widget_error ]};
       requests := ["data/news.json"; "data/news.json"];
       console := [component_error TypeError] |}.
Proof. vm_compute. reflexivity. Qed.

(** Negative sentiment goes before the FDA category, which goes before the
    clinical one; at most two tags are shown. *)
Example renderNews_feed :
  document (init flaky time_value 7201000 "stock-news" "INSM" defaults
              (init flaky time_value 7201000 "stock-news" "INSM" defaults
                 start)) !! "stock-news" =
  Some (news_widget
          [ {| href := str "/a"; borderClass := "border-green-500";
               sentiment_icon := chart_increasing;
               title := str "FDA approves"; publisher := str "Wire";
               published_ago := "2h ago";
               tags := [str "PDUFA"; str "NDA"] |};
            {| href := str "/b"; borderClass := "border-red-500";
               sentiment_icon := chart_decreasing;
               title := str "Trial halted"; publisher := str "Wire";
               published_ago := "1h ago";
               tags := [] |} ]
          "INSM").
Proof. vm_compute. reflexivity. Qed.

(** A ticker the feed does not have gets the empty state. *)
Example init_unknown_ticker :
  document (init (fun _ _ => json_body feed) time_value 0
              "stock-news" "CRNX" defaults start) !! "stock-news" =
  Some (news_widget_empty "CRNX").
Proof. vm_compute. reflexivity. Qed.

(** A container that is not in the document: one line on the console,
    nothing fetched. *)
Example init_no_container :
  init flaky time_value 0 "missing" "INSM" defaults start =
  {| newsData := null;
     document := {[ "stock-news" := news_widget_loading ]};
     requests := [];
     console := [container_not_found
                   "NewsComponent: Container #missing not found"] |}.
Proof. vm_compute. reflexivity. Qed.

End NewsExamples.

(** * Further properties *)

(** ** [catalysts]: who may write, and what the calendar lists *)

Section CatalystsMore.
Import Catalysts.

(** X1. On [catalysts], [INSERT], [UPDATE] and [DELETE] pass the policies
    for the service role only: for an anonymous or an authenticated caller
    no row is visible to these commands and no new row is accepted,
    whatever its [is_public]. *)
Theorem catalysts_writes_service_role_only (who : role) (r : row) :
  Forall (fun cmd =>
            row_visible who cmd r = role_eqb who service_role /\
            row_accepted who cmd r = role_eqb who service_role)
         writes.
Proof.
  unfold writes, row_visible, row_accepted.
  destruct who; repeat constructor; cbn;
    destruct (is_public r) as [[|]|]; reflexivity.
Qed.

Lemma insert_by_date_sorted (r : row) (l : list row) :
  StronglySorted date_le l -> StronglySorted date_le (insert_by_date r l).
Proof.
  induction 1 as [|x l Hl IH Hx]; cbn.
  - repeat constructor.
  - destruct (Z.ltb_spec (catalyst_date r) (catalyst_date x)) as [Hlt|Hge].
    + constructor; [constructor; assumption|].
      constructor; [unfold date_le; lia|].
      eapply Forall_impl; [exact Hx|]. unfold date_le. intros y Hy. lia.
    + constructor; [exact IH|].
      apply insert_by_date_Forall; [exact Hge | exact Hx].
Qed.

Lemma order_by_date_sorted (l : list row) :
  StronglySorted date_le (order_by_date l).
Proof.
  induction l as [|x l IH]; cbn; [constructor|].
  apply insert_by_date_sorted, IH.
Qed.

(** X2. [calendar_catalysts] lists its rows by ascending [catalyst_date],
    and [days_until] is never negative in it. *)
Theorem calendar_catalysts_ascending
    (TO_CHAR : date -> string -> string) (CURRENT_DATE : date) (t : table) :
  StronglySorted Z.le
    (map v_catalyst_date (calendar_catalysts TO_CHAR CURRENT_DATE t)) /\
  Forall (fun v => 0 <= days_until v)
         (calendar_catalysts TO_CHAR CURRENT_DATE t).
Proof.
  unfold calendar_catalysts. split.
  - rewrite map_map. cbn.
    apply (StronglySorted_fmap catalyst_date date_le Z.le);
      [auto | apply order_by_date_sorted].
  - apply Forall_map. apply order_by_date_Forall.
    eapply Forall_impl; [apply filter_Forall|].
    intros r Hr; unfold calendar_where in Hr; cbn.
    apply Z.leb_le in Hr. lia.
Qed.

End CatalystsMore.

(** ** [positions] and [catalyst_research]: who may write *)

Section SetupRlsMore.
Import SetupRls.

(** X4. The policies of the setup script let every role, the anonymous one
    included, read and write every row of [positions] and of
    [catalyst_research]: the policies named for the service role carry no
    [TO] clause. *)
Theorem setup_policies_open (row : Type) (who : Catalysts.role)
    (cmd : Catalysts.command) (r : row) :
  row_visible row (positions_policies row) who cmd r = true /\
  row_accepted row (positions_policies row) who cmd r = true /\
  row_visible row (catalyst_research_policies row) who cmd r = true /\
  row_accepted row (catalyst_research_policies row) who cmd r = true.
Proof. destruct who, cmd; repeat split; reflexivity. Qed.

End SetupRlsMore.

(** ** [catalyst_research]: what the statements do *)

Section CatalystResearchMore.
Import CatalystResearch.
Context {real : Type}.
Implicit Types (r x : row real) (s : state real) (l : list (row real)).

Lemma existsb_same_id r l :
  existsb (fun x => id x =? id r) l = true <-> id r ∈ map id l.
Proof.
  rewrite existsb_exists, list_elem_of_fmap. split.
  - intros (x & Hx & E). exists x. split; [lia|].
    apply list_elem_of_In, Hx.
  - intros (x & E & Hx). exists x. split; [apply list_elem_of_In, Hx | lia].
Qed.

Lemma check_unique_Ok_iff r l :
  check_unique r l = Ok tt <->
  (id r ∉ map id l) /\ (triple r ∉ map triple l).
Proof.
  unfold check_unique.
  destruct (existsb (fun x => id x =? id r) l) eqn:Ei.
  - apply existsb_same_id in Ei. split; [discriminate | tauto].
  - destruct (existsb (same_triple r) l) eqn:Et.
    + apply existsb_same_triple in Et. split; [discriminate | tauto].
    + split; [|reflexivity]. intros _. split.
      * rewrite <- existsb_same_id. congruence.
      * rewrite <- existsb_same_triple. congruence.
Qed.

Lemma check_not_null_Ok (t : tuple real) r :
  check_not_null t = Ok r <->
  t_id t = Some (id r) /\ t_ticker t = Some (ticker r) /\
  t_catalyst_date t = Some (catalyst_date r) /\
  t_catalyst_event t = Some (catalyst_event r) /\ t_rest t = rest r.
Proof.
  unfold check_not_null.
  destruct (t_id t), (t_ticker t), (t_catalyst_date t), (t_catalyst_event t);
    (split; [intros [= <-]; cbn; auto | intros (? & ? & ? & ? & ?)]);
    try discriminate.
  destruct r; cbn in *. congruence.
Qed.

(** [insert] in terms of the tuple it proposes. *)
Lemma insert_unfold (v : insert_values real) s :
  insert v s =
  if negb (values_fit v) then (s, Error numeric_value_out_of_range)
  else if sequence_exhausted v s
  then (s, Error sequence_generator_limit_exceeded)
  else
  let seq := match i_id v with
             | id_default => id_seq s + 1
             | id_value _ => id_seq s
             end in
  match check_not_null {| t_id := proposed_id v s; t_ticker := i_ticker v;
                          t_catalyst_date := i_catalyst_date v;
                          t_catalyst_event := i_catalyst_event v;
                          t_rest := i_rest v |} with
  | Error e => ({| rows := rows s; id_seq := seq |}, Error e)
  | Ok r =>
      match check_unique r (rows s) with
      | Error e => ({| rows := rows s; id_seq := seq |}, Error e)
      | Ok _ => ({| rows := rows s ++ [r]; id_seq := seq |}, Ok tt)
      end
  end.
Proof.
  unfold insert, proposed_id.
  destruct (negb (values_fit v)); [reflexivity|].
  destruct (sequence_exhausted v s); [reflexivity|].
  destruct (i_id v); reflexivity.
Qed.

Lemma insert_keeps_ids (v : insert_values real) s :
  ids_unique (rows s) -> ids_unique (rows (insert v s).1).
Proof.
  intros Hs. rewrite insert_unfold.
  destruct (negb (values_fit v)); [exact Hs|].
  destruct (sequence_exhausted v s); [exact Hs|]. cbv zeta.
  destruct (check_not_null _) as [r|e]; [|exact Hs].
  destruct (check_unique r (rows s)) as [[]|e] eqn:E; [|exact Hs].
  apply check_unique_Ok_iff in E as [Hi _].
  cbn. unfold ids_unique. rewrite map_app. cbn.
  apply NoDup_app. split; [exact Hs|]. split; [|apply NoDup_singleton].
  intros k Hk Hk'. apply list_elem_of_singleton in Hk'. subst k. auto.
Qed.

Lemma delete_keeps_ids w s :
  ids_unique (rows s) -> ids_unique (rows (delete w s).1).
Proof.
  unfold ids_unique; cbn. generalize (rows s) as l.
  induction l as [|x l IH]; cbn; [auto|].
  rewrite NoDup_cons. intros [Hx Hl].
  destruct (negb (w x)); cbn; [|auto].
  apply NoDup_cons. split; [|auto].
  intros Hin. apply Hx.
  apply list_elem_of_fmap in Hin as (y & Hy & Hin).
  apply list_elem_of_fmap. exists y. split; [exact Hy|].
  apply list_elem_of_In. apply list_elem_of_In in Hin.
  apply filter_In in Hin. tauto.
Qed.

Lemma update_rows_keeps_ids w set (done todo rs : list (row real)) :
  ids_unique (done ++ todo) ->
  update_rows w set done todo = Ok rs ->
  ids_unique rs.
Proof.
  revert done. induction todo as [|r todo IH]; intros done Hu; cbn.
  - intros [= <-]. rewrite app_nil_r in Hu. exact Hu.
  - assert (Hrest : ids_unique (done ++ todo)).
    { unfold ids_unique in *. rewrite map_app in *. cbn in Hu.
      apply NoDup_app in Hu as (H1 & H2 & H3).
      apply NoDup_cons in H3 as [H3 H4].
      apply NoDup_app. repeat split; [exact H1| |exact H4].
      intros k Hk Hk'. apply (H2 k Hk). right. exact Hk'. }
    destruct (w r).
    + destruct (check_integers (set r)) as [_|e]; [|discriminate].
      destruct (check_not_null (set r)) as [r'|e]; [|discriminate].
      destruct (check_unique r' (done ++ todo)) as [[]|e] eqn:E;
        [|discriminate].
      apply check_unique_Ok_iff in E as [Hi _].
      apply IH. unfold ids_unique in *.
      rewrite <- app_assoc. cbn.
      rewrite map_app. cbn. rewrite <- Permutation_middle.
      apply NoDup_cons. rewrite <- map_app. split; [exact Hi | exact Hrest].
    + apply IH. rewrite <- app_assoc. exact Hu.
Qed.

(** X6. Whatever statements have run since [catalyst_research] was
    created, no two of its rows share an [id]. *)
Theorem catalyst_research_ids_unique (script : list (statement real)) :
  NoDup (map id (rows (run script (created real)))).
Proof.
  assert (Hrun : forall s, ids_unique (rows s) ->
                           ids_unique (rows (run script s))).
  { induction script as [|st script IH]; intros s Hs; cbn; [exact Hs|].
    apply IH. destruct st as [v|w|w set]; cbn.
    - apply insert_keeps_ids, Hs.
    - apply delete_keeps_ids, Hs.
    - unfold update.
      destruct (update_rows w set [] (rows s)) as [rs|e] eqn:E; cbn;
        [|exact Hs].
      apply (update_rows_keeps_ids w set [] (rows s)); assumption. }
  apply Hrun. cbn. constructor.
Qed.

Lemma update_rows_Forall (P : row real -> Prop) w set
    (done todo rs : list (row real)) :
  (forall r r', P r -> check_not_null (set r) = Ok r' -> P r') ->
  Forall P (done ++ todo) ->
  update_rows w set done todo = Ok rs ->
  Forall P rs.
Proof.
  intros Hset. revert done.
  induction todo as [|r todo IH]; intros done Hall; cbn.
  - intros [= <-]. rewrite app_nil_r in Hall. exact Hall.
  - apply Forall_app in Hall as [Hd Ht].
    apply Forall_cons in Ht as [Hr Ht].
    destruct (w r).
    + destruct (check_integers (set r)) as [_|e]; [|discriminate].
      destruct (check_not_null (set r)) as [r'|e] eqn:En; [|discriminate].
      destruct (check_unique r' (done ++ todo)); [|discriminate].
      apply IH. rewrite <- app_assoc. cbn.
      apply Forall_app. split; [exact Hd|].
      constructor; [exact (Hset r r' Hr En) | exact Ht].
    + apply IH. rewrite <- app_assoc. cbn.
      apply Forall_app. split; [exact Hd|]. constructor; assumption.
Qed.

Lemma exec_keeps_below_sequence (st : statement real) s :
  leaves_id_alone st -> below_sequence s -> below_sequence (exec st s).1.
Proof.
  unfold below_sequence. intros Hst Hs.
  destruct st as [v|w|w set]; cbn in *.
  - rewrite insert_unfold. unfold proposed_id. rewrite Hst.
    destruct (negb (values_fit v)); [exact Hs|].
    destruct (sequence_exhausted v s); [exact Hs|]. cbv zeta.
    destruct (check_not_null _) as [r|e] eqn:En; cbn.
    + apply check_not_null_Ok in En as (Hi & _). cbn in Hi.
      injection Hi as Hi.
      destruct (check_unique r (rows s)); cbn.
      * apply Forall_app. split.
        -- eapply Forall_impl; [exact Hs|]. cbn. intros; lia.
        -- constructor; [lia | constructor].
      * eapply Forall_impl; [exact Hs|]. cbn. intros; lia.
    + eapply Forall_impl; [exact Hs|]. cbn. intros; lia.
  - induction Hs as [|x l Hx Hl IH]; cbn; [constructor|].
    destruct (negb (w x)); [constructor|]; assumption.
  - unfold update.
    destruct (update_rows w set [] (rows s)) as [rs|e] eqn:E; cbn;
      [|exact Hs].
    apply (update_rows_Forall _ w set [] (rows s) rs); [|exact Hs|exact E].
    intros r r' Hr En. apply check_not_null_Ok in En as (Hi & _).
    rewrite Hst in Hi. injection Hi as <-. exact Hr.
Qed.

(** X8. As long as every statement leaves [id] to the sequence, an
    [INSERT] that takes its [id] from the sequence is never stopped by the
    primary key. *)
Theorem sequence_id_is_free (script : list (statement real))
    (v : insert_values real) :
  Forall leaves_id_alone script ->
  i_id v = id_default ->
  stopped_by pkey (insert v (run script (created real))).2 = false.
Proof.
  intros Hscript Hv.
  assert (Hrun : forall s, below_sequence s ->
                           below_sequence (run script s)).
  { induction Hscript as [|st script Hst _ IH]; intros s Hs; cbn; [exact Hs|].
    apply IH, exec_keeps_below_sequence; assumption. }
  assert (Hcreated : below_sequence (created real)) by constructor.
  specialize (Hrun (created real) Hcreated).
  set (s := run script (created real)) in *.
  rewrite insert_unfold. unfold proposed_id. rewrite Hv.
  destruct (negb (values_fit v)); [reflexivity|].
  destruct (sequence_exhausted v s); [reflexivity|]. cbv zeta.
  destruct (check_not_null _) as [r|e] eqn:En; cbn.
  - apply check_not_null_Ok in En as (Hi & _). cbn in Hi. injection Hi as Hi.
    unfold check_unique.
    destruct (existsb (fun x => id x =? id r) (rows s)) eqn:E.
    + exfalso. apply existsb_exists in E as (x & Hx & Hid).
      unfold below_sequence in Hrun. rewrite Forall_forall in Hrun.
      apply list_elem_of_In in Hx. specialize (Hrun x Hx). lia.
    + destruct (existsb (same_triple r) (rows s)); reflexivity.
  - unfold check_not_null in En. cbn in En.
    destruct (i_ticker v); [|injection En as <-; reflexivity].
    destruct (i_catalyst_date v); [|injection En as <-; reflexivity].
    destruct (i_catalyst_event v); [discriminate|].
    injection En as <-; reflexivity.
Qed.

End CatalystResearchMore.

(** Two inserts of the same event (the second fails and still takes a
    sequence value), a delete, and a third insert. *)
Lemma sequence_id_is_free_witness :
  let event (tk : string) : CatalystResearch.insert_values unit :=
    {| CatalystResearch.i_id := CatalystResearch.id_default;
       CatalystResearch.i_ticker := Some tk;
       CatalystResearch.i_catalyst_date := Some "2026-02-17";
       CatalystResearch.i_catalyst_event := Some "PDUFA";
       CatalystResearch.i_rest := CatalystResearch.column_defaults unit 0 |} in
  let script :=
    [CatalystResearch.INSERT (event "INSM");
     CatalystResearch.INSERT (event "INSM");
     CatalystResearch.DELETE
       (fun r => String.eqb (CatalystResearch.ticker r) "CRNX")] in
  CatalystResearch.stopped_by CatalystResearch.pkey
    (CatalystResearch.insert (event "CRNX")
       (CatalystResearch.run script (CatalystResearch.created unit))).2
  = false.
Proof.
  intros event script.
  apply (sequence_id_is_free script (event "CRNX")).
  - repeat constructor.
  - reflexivity.
Defined.

(** ** The waitlist script: signups, the migration and the members view *)

Section ProfilesMore.
Import Profiles.

(** One firing adds nothing, or one waitlist row for the new id. *)
Lemma handle_new_user_appends NOW NEW (profiles : list profile) :
  exists added,
    (handle_new_user NOW NEW profiles).1 = profiles ++ added /\
    Forall (fun p => access_status p = Some "waitlist" /\ id p = u_id NEW)
           added /\
    (has_profile (u_id NEW) profiles = true -> added = []).
Proof.
  unfold handle_new_user. fold (has_profile (u_id NEW) profiles).
  destruct (has_profile (u_id NEW) profiles); cbn.
  - exists []. rewrite app_nil_r. repeat split; constructor.
  - eexists [_]. repeat split; [|discriminate].
    constructor; [|constructor]. cbn. auto.
Qed.

(** X10. Firings of the new-user trigger only ever append to [profiles]:
    the rows that were there stay as they are, in place (an approved
    profile is not put back on the waitlist), and every row added has
    [access_status = 'waitlist'] and the id of one of the new accounts. *)
Theorem fire_all_appends (events : list (timestamptz * auth_user))
    (profiles : list profile) :
  exists added,
    fire_all events profiles = profiles ++ added /\
    Forall (fun p => access_status p = Some "waitlist" /\
                     id p ∈ map (fun ev => u_id ev.2) events) added.
Proof.
  revert profiles. induction events as [|[NOW NEW] events IH];
    intros profiles; cbn.
  - exists []. rewrite app_nil_r. split; constructor.
  - destruct (handle_new_user_appends NOW NEW profiles)
      as (first & Hfirst & Hall & _).
    fold (fire_all events (handle_new_user NOW NEW profiles).1).
    rewrite Hfirst.
    destruct (IH (profiles ++ first)) as (others & -> & Hothers).
    exists (first ++ others). rewrite app_assoc. split; [reflexivity|].
    apply Forall_app. split.
    + eapply Forall_impl; [exact Hall|]. cbn. intros p [Hs ->].
      split; [exact Hs | left].
    + eapply Forall_impl; [exact Hothers|]. cbn. intros p [Hs Hin].
      split; [exact Hs | right; exact Hin].
Qed.

Lemma has_profile_false u (profiles : list profile) :
  has_profile u profiles = false -> u ∉ map id profiles.
Proof.
  intros H Hin. apply list_elem_of_fmap in Hin as (p & -> & Hp).
  assert (has_profile (id p) profiles = true) as Ht
    by (apply has_profile_true; eauto).
  congruence.
Qed.

(** X11. The trigger keeps [id] a key of [profiles]: if no two rows share
    an id before, none do after any number of firings, whatever ids the new
    accounts have. *)
Theorem fire_all_keeps_ids_unique (events : list (timestamptz * auth_user))
    (profiles : list profile) :
  NoDup (map id profiles) -> NoDup (map id (fire_all events profiles)).
Proof.
  revert profiles. induction events as [|[NOW NEW] events IH];
    intros profiles Hnd; cbn; [exact Hnd|].
  fold (fire_all events (handle_new_user NOW NEW profiles).1).
  apply IH. unfold handle_new_user.
  fold (has_profile (u_id NEW) profiles).
  destruct (has_profile (u_id NEW) profiles) eqn:E; cbn; [exact Hnd|].
  rewrite map_app. cbn. apply NoDup_app. split; [exact Hnd|].
  split; [|apply NoDup_singleton].
  intros k Hk Hk'. apply list_elem_of_singleton in Hk'. subst k.
  exact (has_profile_false _ _ E Hk).
Qed.

Lemma approved_members_app (l k : list profile) :
  approved_members (l ++ k) = approved_members l ++ approved_members k.
Proof. apply List.filter_app. Qed.

(** X12. Signing up never grants access: [approved_members] is the same
    before and after any number of firings of the new-user trigger. *)
Theorem signup_grants_no_access (events : list (timestamptz * auth_user))
    (profiles : list profile) :
  approved_members (fire_all events profiles) = approved_members profiles.
Proof.
  destruct (fire_all_appends events profiles) as (added & -> & Hadded).
  rewrite approved_members_app.
  assert (approved_members added = []) as ->; [|apply app_nil_r].
  induction Hadded as [|p added [Hp _] _ IH]; [reflexivity|].
  cbn. rewrite Hp. cbn. exact IH.
Qed.

(** X13. The migration's [UPDATE] leaves nobody waiting and changes nothing
    else: it keeps the rows' ids and order, leaves no row with a [NULL] or
    ['waitlist'] status, keeps every other status, and a second run
    changes nothing. *)
Theorem approve_existing_once (profiles : list profile) :
  map id (approve_existing profiles) = map id profiles /\
  Forall (fun p => awaiting p = false) (approve_existing profiles) /\
  Forall2 (fun p q => awaiting p = false -> q = p)
          profiles (approve_existing profiles) /\
  approve_existing (approve_existing profiles) = approve_existing profiles.
Proof.
  assert (Hone : forall p : profile, exists q,
            approve_existing [p] = [q] /\ id q = id p /\
            awaiting q = false /\ (awaiting p = false -> q = p) /\
            approve_existing [q] = [q]).
  { intros p. unfold approve_existing, awaiting. cbn.
    destruct (access_status p) as [st|] eqn:E.
    - destruct (String.eqb st "waitlist") eqn:Ew.
      + eexists. split; [reflexivity|]. cbn. repeat split. discriminate.
      + exists p. rewrite !E, !Ew. auto.
    - eexists. split; [reflexivity|]. cbn. repeat split. discriminate. }
  induction profiles as [|p profiles (IH1 & IH2 & IH3 & IH4)].
  - repeat split; constructor.
  - destruct (Hone p) as (q & Hq & Hid & Haw & Hsame & Hagain).
    change (approve_existing (p :: profiles))
      with (approve_existing [p] ++ approve_existing profiles).
    rewrite Hq. cbn [app].
    change (approve_existing (q :: approve_existing profiles))
      with (approve_existing [q] ++
            approve_existing (approve_existing profiles)).
    rewrite Hagain, IH4. cbn. rewrite Hid, IH1.
    repeat split; try constructor; auto.
Qed.


End ProfilesMore.

(** Two signups next to an approved profile. *)
Lemma fire_all_keeps_ids_unique_witness :
  let other := {| Profiles.id := "7d1c"; Profiles.email := Some "a@x.io";
                  Profiles.full_name := Some "A";
                  Profiles.access_status := Some "approved";
                  Profiles.created_at := Some 1;
                  Profiles.updated_at := None |} in
  let account (u : string) :=
    {| Profiles.u_id := u; Profiles.u_email := None;
       Profiles.raw_user_meta_data := None |} in
  NoDup (map Profiles.id
           (Profiles.fire_all
              [(5, account "9f2e"); (6, account "7d1c"); (7, account "9f2e")]
              [other])).
Proof.
  intros other account.
  apply (fire_all_keeps_ids_unique
           [(5, account "9f2e"); (6, account "7d1c"); (7, account "9f2e")]
           [other]).
  simpl. repeat constructor. intros H. inversion H.
Defined.

(** ** [js/main.js]: the stored lists *)

Section StorageMore.
Import MainJs.

Lemma isDuplicate_elem_of (email0 : js_string) (l : list waitlist_entry) :
  existsb (fun entry => js_string_eqb (email entry) email0) l =
  bool_decide (email0 ∈ map email l).
Proof.
  induction l as [|x l IH]; cbn.
  - rewrite bool_decide_eq_false_2; [reflexivity|]. intros H. inversion H.
  - unfold js_string_eqb at 1. rewrite IH.
    destruct (decide (email x = email0)) as [E|E].
    + rewrite (bool_decide_eq_true_2 (email x = email0) E). cbn [orb].
      symmetry. apply bool_decide_eq_true_2. rewrite E. left.
    + rewrite (bool_decide_eq_false_2 (email x = email0) E). cbn [orb].
      apply bool_decide_ext. rewrite elem_of_cons. intuition congruence.
Qed.

(** What one call does to the stored list. *)
Lemma storeEmail_waitlist (now email0 source0 : js_string) (w : browser) :
  waitlist (storeEmail now email0 source0 w) =
  waitlist w ++
  (if bool_decide (email0 ∈ map email (waitlist w)) then []
   else [{| email := email0; source := source0; timestamp := now |}]).
Proof.
  unfold storeEmail. fold (waitlist w). rewrite isDuplicate_elem_of.
  destruct (bool_decide (email0 ∈ map email (waitlist w))); cbn [negb].
  - unfold waitlist at 1. cbn [storage]. fold (waitlist w).
    rewrite app_nil_r. reflexivity.
  - unfold waitlist at 1. cbn [storage pbs_waitlist default from_option id].
    reflexivity.
Qed.

Lemma first_submissions_NoDup (seen : list js_string)
    (calls : list submission) :
  NoDup seen -> NoDup (seen ++ map email (first_submissions seen calls)).
Proof.
  revert seen. induction calls as [|c calls IH]; intros seen Hseen; cbn.
  - rewrite app_nil_r. exact Hseen.
  - destruct (decide (s_email c ∈ seen)) as [Hin|Hout].
    + rewrite bool_decide_eq_true_2 by exact Hin. apply IH, Hseen.
    + rewrite bool_decide_eq_false_2 by exact Hout. cbn.
      rewrite (cons_middle (s_email c)), app_assoc. apply IH.
      apply NoDup_app. split; [exact Hseen|]. split; [|apply NoDup_singleton].
      intros x Hx Hx'. apply list_elem_of_singleton in Hx'. subst x. auto.
Qed.

(** X15. After any series of [storeEmail] calls the stored list is the
    list from before followed by one entry for each email that was not
    stored yet, in the order the emails first came, each with the source
    and time of its first call; from an empty storage no two stored entries
    share an email. *)
Theorem storeEmails_first_submissions (calls : list submission) (w : browser) :
  waitlist (storeEmails calls w) =
    waitlist w ++ first_submissions (map email (waitlist w)) calls /\
  NoDup (map email (waitlist (storeEmails calls fresh))).
Proof.
  assert (Hlist : forall w,
            waitlist (storeEmails calls w) =
            waitlist w ++ first_submissions (map email (waitlist w)) calls).
  { clear w. induction calls as [|c calls IH]; intros w; cbn.
    - rewrite app_nil_r. reflexivity.
    - fold (storeEmails calls
              (storeEmail (s_now c) (s_email c) (s_source c) w)).
      rewrite IH, storeEmail_waitlist.
      destruct (bool_decide (s_email c ∈ map email (waitlist w))).
      + rewrite app_nil_r. reflexivity.
      + rewrite map_app, <- app_assoc. reflexivity. }
  split; [apply Hlist|].
  rewrite Hlist. cbn [app].
  apply (first_submissions_NoDup [] calls). constructor.
Qed.

Lemma storeEmail_storage (now email0 source0 : js_string) (w : browser) :
  storage (storeEmail now email0 source0 w) =
  if existsb (fun entry => js_string_eqb (email entry) email0)
             (default [] (pbs_waitlist (storage w)))
  then storage w
  else {| pbs_waitlist :=
            Some (default [] (pbs_waitlist (storage w)) ++
                  [{| email := email0; source := source0;
                      timestamp := now |}]);
          pbs_founding_members := pbs_founding_members (storage w) |}.
Proof. unfold storeEmail. destruct (existsb _ _); reflexivity. Qed.

Lemma storeFoundingMember_storage (now name0 email0 : js_string)
    (w : browser) :
  storage (storeFoundingMember now name0 email0 w) =
  if existsb (fun entry => js_string_eqb (m_email entry) email0)
             (default [] (pbs_founding_members (storage w)))
  then storage w
  else {| pbs_waitlist := pbs_waitlist (storage w);
          pbs_founding_members :=
            Some (default [] (pbs_founding_members (storage w)) ++
                  [{| m_name := name0; m_email := email0;
                      tier := lit "founding_member"; signupDate := now;
                      freeMonthsRemaining := 6; status := lit "active" |}]) |}.
Proof. unfold storeFoundingMember. destruct (existsb _ _); reflexivity. Qed.

(** X16. The two stored lists do not interfere: [storeEmail] leaves the
    founding members as they are, [storeFoundingMember] leaves the
    waitlist as it is, and the storage after the two calls is the same in
    either order. *)
Theorem waitlist_and_members_independent
    (now1 email1 source1 now2 name2 email2 : js_string) (w : browser) :
  pbs_founding_members (storage (storeEmail now1 email1 source1 w)) =
    pbs_founding_members (storage w) /\
  pbs_waitlist (storage (storeFoundingMember now2 name2 email2 w)) =
    pbs_waitlist (storage w) /\
  storage (storeEmail now1 email1 source1
             (storeFoundingMember now2 name2 email2 w)) =
  storage (storeFoundingMember now2 name2 email2
             (storeEmail now1 email1 source1 w)).
Proof.
  destruct w as [[wl fm] cons].
  rewrite !storeEmail_storage, !storeFoundingMember_storage.
  cbn [storage pbs_waitlist pbs_founding_members].
  destruct (existsb (fun entry => js_string_eqb (email entry) email1)
                    (default [] wl)) eqn:E1;
    destruct (existsb (fun entry => js_string_eqb (m_email entry) email2)
                      (default [] fm)) eqn:E2;
    repeat (rewrite ?storeEmail_storage, ?storeFoundingMember_storage;
            cbn [storage pbs_waitlist pbs_founding_members];
            rewrite ?E1, ?E2); auto.
Qed.

Lemma storeFoundingMember_members (now name0 email0 : js_string)
    (w : browser) :
  founding_members (storeFoundingMember now name0 email0 w) =
  founding_members w ++
  (if existsb (fun entry => js_string_eqb (m_email entry) email0)
              (founding_members w)
   then []
   else [{| m_name := name0; m_email := email0;
            tier := lit "founding_member"; signupDate := now;
            freeMonthsRemaining := 6; status := lit "active" |}]).
Proof.
  unfold storeFoundingMember. fold (founding_members w).
  destruct (existsb _ (founding_members w)); cbn [negb].
  - unfold founding_members at 1. cbn [storage]. fold (founding_members w).
    rewrite app_nil_r. reflexivity.
  - unfold founding_members at 1.
    cbn [storage pbs_founding_members default from_option id]. reflexivity.
Qed.

(** X17. The founding-member form has no capacity check: a member with a
    new email is stored even when the 100 spots are gone, and the counter
    [updateSpotsRemaining] shows goes down by one until it stays at 0; it
    is never negative and never above 100. *)
Theorem founding_members_oversubscribe (now name0 email0 : js_string)
    (w : browser) :
  Forall (fun m => m_email m <> email0) (founding_members w) ->
  let w' := storeFoundingMember now name0 email0 w in
  length (founding_members w') = S (length (founding_members w)) /\
  updateSpotsRemaining w' = Z.max 0 (updateSpotsRemaining w - 1) /\
  0 <= updateSpotsRemaining w' <= 100.
Proof.
  intros Hnew w'.
  assert (Hlen : length (founding_members w') =
                 S (length (founding_members w))).
  { subst w'. rewrite storeFoundingMember_members.
    assert (existsb (fun entry => js_string_eqb (m_email entry) email0)
                    (founding_members w) = false) as ->.
    { induction Hnew as [|m l Hm _ IH]; cbn; [reflexivity|].
      unfold js_string_eqb at 1. rewrite (bool_decide_eq_false_2 _ Hm).
      exact IH. }
    rewrite length_app. cbn. lia. }
  split; [exact Hlen|].
  unfold updateSpotsRemaining, totalSpots. rewrite Hlen. lia.
Qed.

End StorageMore.

(** The 101st founding member. *)
Lemma founding_members_oversubscribe_witness :
  let member (n : nat) :=
    {| MainJs.m_name := lit "M"; MainJs.m_email := repeat 65%N n;
       MainJs.tier := lit "founding_member";
       MainJs.signupDate := lit "2026-01-05T10:00:00.000Z";
       MainJs.freeMonthsRemaining := 6; MainJs.status := lit "active" |} in
  let w := {| MainJs.storage :=
                {| MainJs.pbs_waitlist := None;
                   MainJs.pbs_founding_members :=
                     Some (map member (seq 1 100)) |};
              MainJs.console := [] |} in
  let w' := MainJs.storeFoundingMember (lit "2026-01-06T10:00:00.000Z")
              (lit "JB") (lit "jb@x.io") w in
  length (MainJs.founding_members w') = S (length (MainJs.founding_members w))
  /\
  MainJs.updateSpotsRemaining w' =
    Z.max 0 (MainJs.updateSpotsRemaining w - 1) /\
  0 <= MainJs.updateSpotsRemaining w' <= 100.
Proof.
  intros member w.
  apply (founding_members_oversubscribe _ (lit "JB") (lit "jb@x.io") w).
  apply Forall_forall. intros m Hm.
  apply list_elem_of_In, in_map_iff in Hm as (n & <- & Hn).
  apply in_seq in Hn. simpl. intros H.
  apply (f_equal (fun l => hd 0%N l)) in H.
  destruct n; [lia | discriminate H].
Defined.

(** ** [js/main.js]: the ticker and the email forms *)

Section FormsMore.
Import MainJs.

Lemma rotation_shown (t : ticker) (item : ticker_item) :
  tickerItem t = Some item ->
  let index := (S (currentTickerIndex t) mod 7)%nat in
  exists shown,
    tickerStats !! index = Some shown /\
    rotation t =
      {| currentTickerIndex := index;
         tickerItem := Some {| innerHTML := text shown; opacity := "1";
                               transform := "translateY(0)" |};
         pulse := (fun _ => "w-2 h-2 rounded-full mr-3 animate-pulse" +:+
                            " " +:+ pulse_colour (type shown)) <$> pulse t |}.
Proof.
  intros Hitem index.
  assert (Hlt : (index < length tickerStats)%nat)
    by (apply Nat.mod_upper_bound; discriminate).
  destruct (lookup_lt_is_Some_2 tickerStats index Hlt) as [shown Hshown].
  exists shown. split; [exact Hshown|].
  unfold rotation, updateTicker. rewrite Hitem.
  unfold updateTicker_timeout. cbn [currentTickerIndex tickerItem pulse fmap
                                     option_fmap option_map].
  change (length tickerStats) with 7%nat. fold index.
  rewrite (nth_lookup_Some _ _ _ _ Hshown). reflexivity.
Qed.

(** X18. With a [.ticker-item] on the page, the ticker after [k + 1]
    rotations is at index [(start + k + 1) mod 7] and shows the text of that
    entry of [tickerStats] faded in; the pulse dot (if there is one) has
    the four base classes and one colour: green for a win, red for a loss,
    gold for anything else. The index never leaves the list. *)
Theorem ticker_rotations (k : nat) (t : ticker) :
  is_Some (tickerItem t) ->
  let t' := Nat.iter (S k) rotation t in
  currentTickerIndex t' = ((currentTickerIndex t + S k) mod 7)%nat /\
  exists shown,
    tickerStats !! currentTickerIndex t' = Some shown /\
    tickerItem t' = Some {| innerHTML := text shown; opacity := "1";
                            transform := "translateY(0)" |} /\
    pulse t' =
      (fun _ =>
         match type shown with
         | win => "w-2 h-2 rounded-full mr-3 animate-pulse bg-green-400"
         | loss => "w-2 h-2 rounded-full mr-3 animate-pulse bg-red-400"
         | stat => "w-2 h-2 rounded-full mr-3 animate-pulse bg-gold"
         end) <$> pulse t.
Proof.
  intros [item Hitem]. induction k as [|k IH]; intros t'; subst t'.
  - change (Nat.iter 1 rotation t) with (rotation t).
    destruct (rotation_shown t item Hitem) as (shown & Hshown & ->).
    cbn [currentTickerIndex tickerItem pulse]. split.
    + f_equal. lia.
    + exists shown. split; [exact Hshown|]. split; [reflexivity|].
      destruct (pulse t); [|reflexivity].
      destruct (type shown); reflexivity.
  - rewrite Nat.iter_succ.
    destruct IH as (Hindex & prev & _ & Hprev & Hpulse).
    destruct (rotation_shown _ _ Hprev) as (shown & Hshown & ->).
    cbn [currentTickerIndex tickerItem pulse]. split.
    + rewrite Hindex.
      replace (S ((currentTickerIndex t + S k) mod 7))
        with (((currentTickerIndex t + S k) mod 7) + 1)%nat by lia.
      rewrite Nat.Div0.add_mod_idemp_l. f_equal. lia.
    + exists shown. split; [exact Hshown|]. split; [reflexivity|].
      rewrite Hpulse. destruct (pulse t); [|reflexivity].
      destruct (type shown); reflexivity.
Qed.

Lemma trim_start_plain (s : js_string) :
  Forall (fun c => is_white_space c = false) s -> trim_start s = s.
Proof. destruct 1 as [|c s Hc _]; cbn; [|rewrite Hc]; reflexivity. Qed.

Lemma plain_run_no_space (l : js_string) :
  plain_run l ->
  Forall (fun c => is_white_space c = false) l /\
  count_occ N.eq_dec l commercial_at = 0%nat /\ (1 <= length l)%nat.
Proof.
  intros [Hne Hall]. split; [|split].
  - eapply Forall_impl; [exact Hall|]. intros c [Hc _]. exact Hc.
  - apply count_occ_not_In. intros Hin.
    rewrite Forall_forall in Hall. apply list_elem_of_In in Hin.
    destruct (Hall _ Hin) as [_ Hat]. congruence.
  - destruct l; [contradiction | cbn; lia].
Qed.

(** The parts of a string [isValidEmail] accepts. *)
Lemma isValidEmail_parts (s : js_string) :
  isValidEmail s = true ->
  exists a b c,
    s = a ++ commercial_at :: b ++ full_stop :: c /\
    plain_run a /\ plain_run b /\ plain_run c.
Proof.
  unfold isValidEmail, emailRegex.
  rewrite test_caret, match_from_one_or_more, repeat_atom_spec.
  intros (a & post & -> & Hne & Hall & Hk).
  apply match_at_run_dot_run in Hk as (b & c & -> & Hb & Hc).
  exists a, b, c. split; [reflexivity|]. split; [|auto].
  apply plain_run_spec. auto.
Qed.

(** X19. A string [isValidEmail] accepts has no white space anywhere, has
    exactly one [@], is at least five characters long, and is left as it
    is by [trim]. *)
Theorem isValidEmail_necessary (s : js_string) :
  isValidEmail s = true ->
  Forall (fun c => is_white_space c = false) s /\
  count_occ N.eq_dec s commercial_at = 1%nat /\
  (5 <= length s)%nat /\
  trim s = s.
Proof.
  intros H. apply isValidEmail_parts in H as (a & b & c & -> & Ha & Hb & Hc).
  apply plain_run_no_space in Ha as (Ha & Hca & Hla).
  apply plain_run_no_space in Hb as (Hb & Hcb & Hlb).
  apply plain_run_no_space in Hc as (Hc & Hcc & Hlc).
  assert (Hall : Forall (fun c => is_white_space c = false)
                        (a ++ commercial_at :: b ++ full_stop :: c)).
  { apply Forall_app. split; [exact Ha|].
    constructor; [reflexivity|]. apply Forall_app. split; [exact Hb|].
    constructor; [reflexivity | exact Hc]. }
  split; [exact Hall|]. split; [|split].
  - unfold code_unit in *. rewrite count_occ_app, Hca. cbn [count_occ].
    destruct (N.eq_dec commercial_at commercial_at); [|contradiction].
    rewrite count_occ_app, Hcb. cbn [count_occ].
    destruct (N.eq_dec full_stop commercial_at); [discriminate|].
    rewrite Hcc. reflexivity.
  - rewrite length_app. cbn [length]. rewrite length_app. cbn [length]. lia.
  - unfold trim. rewrite (trim_start_plain _ Hall).
    rewrite (trim_start_plain _ (Forall_rev Hall)). apply rev_involutive.
Qed.

(** X20. Whatever is typed into an email form, a submission (with its
    timer run to the end) only ever appends to the stored waitlist, and
    what it appends is an address [isValidEmail] accepts, filed under the
    form's name; nothing is stored before the timer fires, and no timer is
    set exactly when the trimmed input fails the validation. *)
Theorem form_stores_valid_emails_only (now formName : js_string)
    (pg : form_page) :
  (exists added,
      waitlist (page_browser (submitted now formName pg)) =
        waitlist (page_browser pg) ++ added /\
      Forall (fun e => isValidEmail (email e) = true /\ source e = formName)
             added) /\
  page_browser (handleEmailSubmit pg).1 = page_browser pg /\
  ((handleEmailSubmit pg).2 = None <->
   isValidEmail (trim (input_value (form pg))) = false).
Proof.
  unfold submitted, handleEmailSubmit.
  destruct (isValidEmail (trim (input_value (form pg)))) eqn:E; cbn [negb].
  - split; [|split; [reflexivity | split; discriminate]].
    unfold handleEmailSubmit_timeout, showToast.
    cbn [page_browser pending_email]. rewrite storeEmail_waitlist.
    destruct (bool_decide _).
    + exists []. split; [reflexivity | constructor].
    + eexists [_]. split; [reflexivity|].
      constructor; [|constructor]. cbn. auto.
  - split; [|split; [reflexivity | split; reflexivity]].
    exists []. cbn. rewrite app_nil_r. split; [reflexivity | constructor].
Qed.

(** X21. After a submission of an input whose trimmed value passes the
    validation (with its timer run to the end), that trimmed value is on
    the stored waitlist, the input is empty, the button is enabled and
    shows its text again, and the last toast is the success message;
    while the timer runs the button is disabled and shows the spinner. *)
Theorem valid_submission_is_stored (now formName : js_string)
    (pg : form_page) :
  isValidEmail (trim (input_value (form pg))) = true ->
  let waiting := (handleEmailSubmit pg).1 in
  let done := submitted now formName pg in
  button_disabled (form waiting) = true /\
  button (form waiting) = button_spinner /\
  trim (input_value (form pg)) ∈ map email (waitlist (page_browser done)) /\
  input_value (form done) = [] /\
  button_disabled (form done) = false /\
  button (form done) = button_text (textContent (button (form pg))) /\
  toasts done = toasts pg ++ [("Thanks! You're on the list.", "success")].
Proof.
  intros E waiting done. subst waiting done.
  unfold submitted, handleEmailSubmit. rewrite E. cbn [negb fst].
  unfold handleEmailSubmit_timeout, showToast.
  cbn [page_browser form toasts pending_email originalText input_value
       button_disabled button].
  repeat split.
  rewrite storeEmail_waitlist.
  destruct (decide (trim (input_value (form pg))
                    ∈ map email (waitlist (page_browser pg)))) as [Hin|Hout].
  - rewrite bool_decide_eq_true_2 by exact Hin. rewrite app_nil_r. exact Hin.
  - rewrite bool_decide_eq_false_2 by exact Hout.
    rewrite map_app. apply elem_of_app. right. left.
Qed.

End FormsMore.

(** The ticker as the page loads it, with a pulse dot. *)
Lemma ticker_rotations_witness :
  let t := {| MainJs.currentTickerIndex := 0;
              MainJs.tickerItem :=
                Some {| MainJs.innerHTML := "Loading"; MainJs.opacity := "";
                        MainJs.transform := "" |};
              MainJs.pulse := Some "w-2 h-2 rounded-full mr-3 animate-pulse" |}
  in
  let t' := Nat.iter 12 MainJs.rotation t in
  MainJs.currentTickerIndex t' = 5%nat /\
  exists shown,
    MainJs.tickerStats !! MainJs.currentTickerIndex t' = Some shown /\
    MainJs.tickerItem t' =
      Some {| MainJs.innerHTML := MainJs.text shown; MainJs.opacity := "1";
              MainJs.transform := "translateY(0)" |} /\
    MainJs.pulse t' =
      (fun _ =>
         match MainJs.type shown with
         | MainJs.win => "w-2 h-2 rounded-full mr-3 animate-pulse bg-green-400"
         | MainJs.loss => "w-2 h-2 rounded-full mr-3 animate-pulse bg-red-400"
         | MainJs.stat => "w-2 h-2 rounded-full mr-3 animate-pulse bg-gold"
         end) <$> MainJs.pulse t.
Proof.
  intros t.
  apply (ticker_rotations 11 t).
  simpl. eexists. reflexivity.
Defined.

Lemma isValidEmail_necessary_witness :
  Forall (fun c => MainJs.is_white_space c = false) (lit "jb@x.io") /\
  count_occ N.eq_dec (lit "jb@x.io") MainJs.commercial_at = 1%nat /\
  (5 <= length (lit "jb@x.io"))%nat /\
  MainJs.trim (lit "jb@x.io") = lit "jb@x.io".
Proof.
  apply (isValidEmail_necessary (lit "jb@x.io")). reflexivity.
Defined.

(** An address typed with a space before and a line feed after it. *)
Lemma valid_submission_is_stored_witness :
  let pg := {| MainJs.page_browser := MainJs.fresh;
               MainJs.form :=
                 {| MainJs.input_value := 32%N :: lit "jb@x.io" ++ [10%N];
                    MainJs.input_focused := true;
                    MainJs.button_disabled := false;
                    MainJs.button := MainJs.button_text (lit "Join") |};
               MainJs.toasts := [] |} in
  let now := lit "2026-01-06T10:00:00.000Z" in
  let waiting := (MainJs.handleEmailSubmit pg).1 in
  let done := MainJs.submitted now (lit "hero") pg in
  MainJs.button_disabled (MainJs.form waiting) = true /\
  MainJs.button (MainJs.form waiting) = MainJs.button_spinner /\
  MainJs.trim (MainJs.input_value (MainJs.form pg))
    ∈ map MainJs.email (MainJs.waitlist (MainJs.page_browser done)) /\
  MainJs.input_value (MainJs.form done) = [] /\
  MainJs.button_disabled (MainJs.form done) = false /\
  MainJs.button (MainJs.form done) =
    MainJs.button_text (MainJs.textContent (MainJs.button (MainJs.form pg))) /\
  MainJs.toasts done =
    MainJs.toasts pg ++ [("Thanks! You're on the list.", "success")].
Proof.
  intros pg now.
  apply (valid_submission_is_stored now (lit "hero") pg).
  reflexivity.
Defined.

(** ** [js/news-component.js]: the cache and what [init] shows *)

Section NewsMore.
Import NewsComponent.
Variable network : nat -> string -> response.
Variable Date_time : value -> num.
Variable now : Z.

Lemma keeps_bind {A B C} (f : page -> C) (m : M A) (g : A -> M B) :
  keeps f m -> (forall a, keeps f (g a)) -> keeps f (bind m g).
Proof.
  intros Hm Hg p. unfold bind. specialize (Hm p).
  destruct (m p) as [p' [a|e]]; cbn in *; [|exact Hm].
  rewrite Hg. exact Hm.
Qed.

Lemma keeps_lift {A C} (f : page -> C) (c : completion A) : keeps f (lift c).
Proof. intros p. reflexivity. Qed.

(** With a filled cache nothing is fetched and the cache stays. *)
Lemma ensure_newsData_hit url p :
  truthy (newsData p) = true -> ensure_newsData network url p = (p, normal tt).
Proof. intros H. unfold ensure_newsData. rewrite H. reflexivity. Qed.

(** With an empty one a request is sent, and the body, if there is one,
    becomes the cache. *)
Lemma ensure_newsData_miss url p :
  truthy (newsData p) = false ->
  exists c,
    ensure_newsData network url p =
    ({| newsData := cached (network (length (requests p)) url) (newsData p);
        document := document p;
        requests := requests p ++ [url];
        console := console p |}, c).
Proof.
  intros H. unfold ensure_newsData. rewrite H. cbn [negb].
  unfold bind, fetch_json.
  destruct (network (length (requests p)) url); cbn; eauto.
Qed.

(** The rest of the [try] block of [init], after the cache is there. *)
Definition show (containerId ticker : string) (cfg : config) : M unit :=
  tickerNews <- by_ticker_of ticker ;;
  len <- lift (get tickerNews "length") ;;
  match len with
  | number 0 => set_innerHTML containerId (renderEmpty ticker)
  | _ =>
      match tickerNews with
      | array items =>
          html <- lift (renderNews Date_time now
                          (slice items (maxItems cfg)) ticker cfg) ;;
          set_innerHTML containerId html
      | _ => lift (throw TypeError)
      end
  end.

Lemma init_try_show containerId ticker cfg :
  init_try network Date_time now containerId ticker cfg =
  (_ <- ensure_newsData network (dataUrl cfg) ;; show containerId ticker cfg).
Proof. reflexivity. Qed.

Lemma keeps_show {C} (f : page -> C) containerId ticker cfg :
  (forall m, keeps f (set_innerHTML containerId m)) ->
  keeps f (show containerId ticker cfg).
Proof.
  intros Hset. unfold show.
  apply keeps_bind; [intros p; reflexivity|]. intros tickerNews.
  apply keeps_bind; [apply keeps_lift|]. intros len.
  assert (Hlist : keeps f
            (match tickerNews with
             | array items =>
                 html <- lift (renderNews Date_time now
                                 (slice items (maxItems cfg)) ticker cfg) ;;
                 set_innerHTML containerId html
             | _ => lift (throw TypeError)
             end)).
  { destruct tickerNews; try apply keeps_lift.
    apply keeps_bind; [apply keeps_lift|]. intros html. apply Hset. }
  destruct len as [| |b|n|t|els|ms]; try exact Hlist.
  destruct n; [apply Hset | exact Hlist | exact Hlist].
Qed.

Lemma init_unfold containerId ticker o p m :
  document p !! containerId = Some m ->
  init network Date_time now containerId ticker o p =
  let p1 := (set_innerHTML containerId renderLoading p).1 in
  match (_ <- ensure_newsData network (dataUrl (merge o)) ;;
         show containerId ticker (merge o)) p1 with
  | (p2, normal _) => p2
  | (p2, throw error) =>
      (set_innerHTML containerId renderError
         (console_error (component_error error) p2).1).1
  end.
Proof. intros Hm. unfold init. rewrite Hm. reflexivity. Qed.

Lemma init_keeps {C} (f : page -> C) containerId ticker o p :
  (forall m, keeps f (set_innerHTML containerId m)) ->
  (forall l, keeps f (console_error l)) ->
  truthy (newsData p) = true ->
  f (init network Date_time now containerId ticker o p) = f p.
Proof.
  intros Hset Hlog Hhit. unfold init.
  destruct (document p !! containerId) as [m|]; [|apply Hlog].
  set (p1 := (set_innerHTML containerId renderLoading p).1).
  assert (Hp1 : f p1 = f p) by apply Hset.
  rewrite init_try_show. unfold bind at 1.
  rewrite ensure_newsData_hit by exact Hhit.
  pose proof (keeps_show f containerId ticker (merge o) Hset p1) as Hshow.
  destruct (show containerId ticker (merge o) p1) as [p2 [[]|e]];
    cbn [fst] in Hshow.
  - congruence.
  - transitivity (f p2); [|congruence].
    apply (keeps_bind f (console_error (component_error e))
             (fun _ => set_innerHTML containerId renderError));
      [apply Hlog | intros _; apply Hset].
Qed.

(** X22. Once the cache holds a truthy value it is used for the rest of
    the page's life: [init], [getTickerNews] and [getAlerts] send no
    request and leave [newsData] as it is. *)
Theorem filled_cache_is_used containerId ticker o p :
  truthy (newsData p) = true ->
  let after_init := init network Date_time now containerId ticker o p in
  requests after_init = requests p /\
  newsData after_init = newsData p /\
  (getTickerNews network ticker p).1 = p /\
  (getAlerts network p).1 = p.
Proof.
  intros Hhit after_init. subst after_init. repeat split.
  - apply init_keeps; [| |exact Hhit]; intros ? ?; reflexivity.
  - apply init_keeps; [| |exact Hhit]; intros ? ?; reflexivity.
  - unfold getTickerNews, bind. rewrite ensure_newsData_hit by exact Hhit.
    reflexivity.
  - unfold getAlerts, bind. rewrite ensure_newsData_hit by exact Hhit.
    reflexivity.
Qed.

(** X23. With a cache that is [null] or otherwise falsy, [getTickerNews],
    [getAlerts] and [init] (on an existing container) send exactly one
    request, and [newsData] becomes the parsed body whenever there is one,
    a falsy one included, and stays as it was when the fetch or the parse
    fails; so a feed whose JSON is [null], [false], [0] or [""] is fetched
    again by every call. *)
Theorem empty_cache_is_refilled containerId ticker o p :
  truthy (newsData p) = false ->
  let n := length (requests p) in
  let url := dataUrl default_config in
  (requests (getTickerNews network ticker p).1 = requests p ++ [url] /\
   newsData (getTickerNews network ticker p).1 =
     cached (network n url) (newsData p)) /\
  (requests (getAlerts network p).1 = requests p ++ [url] /\
   newsData (getAlerts network p).1 = cached (network n url) (newsData p)) /\
  (is_Some (document p !! containerId) ->
   let after_init := init network Date_time now containerId ticker o p in
   requests after_init = requests p ++ [dataUrl (merge o)] /\
   newsData after_init =
     cached (network n (dataUrl (merge o))) (newsData p)).
Proof.
  intros Hmiss n url. subst n url.
  destruct (ensure_newsData_miss (dataUrl default_config) p Hmiss)
    as [c Hc].
  split; [|split].
  - unfold getTickerNews, bind. rewrite Hc.
    destruct c as [[]|e]; cbn; auto.
  - unfold getAlerts, bind. rewrite Hc.
    destruct c as [[]|e]; cbn; auto.
  - intros [m Hm] after_init. subst after_init.
    remember (init network Date_time now containerId ticker o p) as q eqn:Hq.
    rewrite (init_unfold _ _ _ _ m Hm) in Hq. cbv zeta in Hq.
    set (p1 := (set_innerHTML containerId renderLoading p).1) in Hq.
    destruct (ensure_newsData_miss (dataUrl (merge o)) p1 Hmiss)
      as [c1 Hc1].
    unfold bind at 1 in Hq. rewrite Hc1 in Hq.
    destruct c1 as [[]|e]; [|subst q; cbn; auto].
    match type of Hq with
    | context [show containerId ticker (merge o) ?r] =>
        pose proof (keeps_show requests containerId ticker (merge o)
                      (fun _ _ => eq_refl) r) as Hreq;
        pose proof (keeps_show newsData containerId ticker (merge o)
                      (fun _ _ => eq_refl) r) as Hnews;
        destruct (show containerId ticker (merge o) r) as [p2 [[]|e]]
    end; subst q; cbn in *; auto.
Qed.

Lemma by_ticker_of_entry ticker p :
  by_ticker_of ticker p =
  (p, await found from ticker_entry (newsData p) ticker in
      normal (or_else found (array []))).
Proof.
  unfold by_ticker_of, lift, ticker_entry.
  destruct (get (newsData p) "by_ticker"); reflexivity.
Qed.

(** What [show] does: it throws and leaves the page, or shows the empty
    state for a list of length 0, or shows the items it could render. *)
Lemma show_cases containerId ticker cfg p :
  (exists e, show containerId ticker cfg p = (p, throw e)) \/
  (exists found,
      ticker_entry (newsData p) ticker = normal found /\
      ((get (or_else found (array [])) "length" = normal (number 0) /\
        show containerId ticker cfg p =
          ((set_innerHTML containerId (renderEmpty ticker) p).1, normal tt))
       \/
       (exists items0 its,
           or_else found (array []) = array items0 /\ items0 <> [] /\
           render_items Date_time now (slice items0 (maxItems cfg)) =
             normal its /\
           show containerId ticker cfg p =
             ((set_innerHTML containerId (news_widget its ticker) p).1,
              normal tt)))).
Proof.
  unfold show, bind. rewrite by_ticker_of_entry.
  destruct (ticker_entry (newsData p) ticker) as [found|e]; cbn [and_then];
    [|left; eauto].
  set (tickerNews := or_else found (array [])).
  unfold lift at 1.
  destruct (get tickerNews "length") as [len|e] eqn:El; [|left; eauto].
  assert (Hlist :
    len <> number 0 ->
    (exists e,
        match tickerNews with
        | array items =>
            fun p0 =>
              match lift (renderNews Date_time now
                            (slice items (maxItems cfg)) ticker cfg) p0 with
              | (p', normal a) => set_innerHTML containerId a p'
              | (p', throw e0) => (p', throw e0)
              end
        | _ => lift (throw TypeError)
        end p = (p, throw e)) \/
    (exists items0 its,
        tickerNews = array items0 /\ items0 <> [] /\
        render_items Date_time now (slice items0 (maxItems cfg)) =
          normal its /\
        match tickerNews with
        | array items =>
            fun p0 =>
              match lift (renderNews Date_time now
                            (slice items (maxItems cfg)) ticker cfg) p0 with
              | (p', normal a) => set_innerHTML containerId a p'
              | (p', throw e0) => (p', throw e0)
              end
        | _ => lift (throw TypeError)
        end p =
        ((set_innerHTML containerId (news_widget its ticker) p).1,
         normal tt))).
  { intros Hlen.
    destruct tickerNews as [| |b|n|t|items0|ms];
      try (left; eexists; reflexivity).
    unfold lift, renderNews.
    destruct (render_items Date_time now (slice items0 (maxItems cfg)))
      as [its|e] eqn:Er; cbn [and_then]; [|left; eauto].
    right. exists items0, its.
    split; [reflexivity|]. split; [|split; [exact Er | reflexivity]].
    intros ->. cbn in El. injection El as <-. apply Hlen. reflexivity. }
  destruct len as [| |b|n|t|els|ms];
    try (destruct Hlist as [[e He]|(items0 & its & H1 & H2 & H3 & H4)];
         [discriminate | left; eauto | right; exists found; split;
          [reflexivity | right; exists items0, its; auto]]).
  destruct n as [|n|n];
    [right; exists found; split; [reflexivity | left; auto] | |];
    (destruct Hlist as [[e He]|(items0 & its & H1 & H2 & H3 & H4)];
     [discriminate | left; eauto | right; exists found; split;
      [reflexivity | right; exists items0, its; auto]]).
Qed.

Lemma ensure_newsData_keeps_document url :
  keeps document (ensure_newsData network url).
Proof.
  intros p. destruct (truthy (newsData p)) eqn:E.
  - rewrite ensure_newsData_hit by exact E. reflexivity.
  - destruct (ensure_newsData_miss url p E) as [c ->]. reflexivity.
Qed.

(** What a renderable list looks like. *)
Lemma render_items_shape (items : list value) (its : list news_item) :
  render_items Date_time now items = normal its ->
  length its = length items /\
  Forall (fun it => (length (tags it) <= 2)%nat) its.
Proof.
  revert its. induction items as [|item items IH]; intros its; cbn.
  - intros [= <-]. split; [reflexivity | constructor].
  - destruct (render_item Date_time now item) as [first|e] eqn:E1;
      cbn [and_then]; [|discriminate].
    destruct (render_items Date_time now items) as [others|e];
      cbn [and_then]; [|discriminate].
    intros [= <-]. destruct (IH others eq_refl) as [Hlen Htags].
    split; [cbn; congruence|]. constructor; [|exact Htags].
    unfold render_item in E1.
    repeat match type of E1 with
           | and_then ?c _ = _ =>
               let Hstep := fresh "Hstep" in
               destruct c eqn:Hstep; cbn [and_then] in E1; [|discriminate E1]
           end.
    injection E1 as <-. cbn [tags].
    match goal with
    | H : match or_else ?v ?d with _ => _ end = normal _ |- _ =>
        destruct (or_else v d); try discriminate H; injection H as <-
    end.
    rewrite length_take. lia.
Qed.

(** What [init] leaves in an existing container. *)
Lemma init_document containerId ticker o p :
  is_Some (document p !! containerId) ->
  exists m,
    document (init network Date_time now containerId ticker o p) =
      <[containerId := m]> (<[containerId := renderLoading]> (document p)) /\
    (m = renderEmpty ticker \/ m = renderError \/
     exists items0 its,
       items0 <> [] /\
       render_items Date_time now (slice items0 (maxItems (merge o))) =
         normal its /\
       m = news_widget its ticker).
Proof.
  intros [m0 Hm0]. rewrite (init_unfold _ _ _ _ m0 Hm0). cbv zeta.
  set (p1 := (set_innerHTML containerId renderLoading p).1).
  unfold bind at 1.
  pose proof (ensure_newsData_keeps_document (dataUrl (merge o)) p1) as Hdoc.
  destruct (ensure_newsData network (dataUrl (merge o)) p1) as [p2 [[]|e]];
    cbn [fst] in Hdoc.
  - destruct (show_cases containerId ticker (merge o) p2)
      as [[e ->]|(found & _ & [[_ ->]|(items0 & its & _ & Hne & Hr & ->)])].
    + exists renderError. cbn. rewrite Hdoc. auto.
    + exists (renderEmpty ticker). cbn. rewrite Hdoc. auto.
    + exists (news_widget its ticker). cbn. rewrite Hdoc. split; [reflexivity|].
      right. right. eauto.
  - exists renderError. cbn. rewrite Hdoc. auto.
Qed.

(** X24. On an existing container [init] never leaves the loading state:
    when it returns, the container shows the empty state for the ticker,
    the error state, or a list for the ticker. *)
Theorem init_settles containerId ticker o p :
  is_Some (document p !! containerId) ->
  let shown :=
    document (init network Date_time now containerId ticker o p)
      !! containerId in
  shown = Some (news_widget_empty ticker) \/
  shown = Some news_widget_error \/
  exists items, shown = Some (news_widget items ticker).
Proof.
  intros Hc shown. subst shown.
  destruct (init_document containerId ticker o p Hc) as (m & -> & Hm).
  rewrite lookup_insert_eq.
  destruct Hm as [->|[->|(items0 & its & _ & _ & ->)]].
  - left. reflexivity.
  - right. left. reflexivity.
  - right. right. exists its. reflexivity.
Qed.

(** X25. When [init] shows a list, it is a list for the ticker asked for,
    with at most [maxItems] items (for a [maxItems] that is not negative),
    at least one item (for a [maxItems] of 1 or more), and at most two
    tags on each item. *)
Theorem init_list_bounds containerId ticker o p items shown_ticker :
  is_Some (document p !! containerId) ->
  document (init network Date_time now containerId ticker o p)
    !! containerId = Some (news_widget items shown_ticker) ->
  shown_ticker = ticker /\
  Forall (fun it => (length (tags it) <= 2)%nat) items /\
  (0 <= maxItems (merge o) -> Z.of_nat (length items) <= maxItems (merge o)) /\
  (1 <= maxItems (merge o) -> (1 <= length items)%nat).
Proof.
  intros Hc Hshown.
  destruct (init_document containerId ticker o p Hc) as (m & Hdoc & Hm).
  rewrite Hdoc, lookup_insert_eq in Hshown. injection Hshown as ->.
  destruct Hm as [Hm|[Hm|(items0 & its & Hne & Hr & Hm)]];
    try discriminate Hm.
  injection Hm as -> ->.
  apply render_items_shape in Hr as [Hlen Htags].
  split; [reflexivity|]. split; [exact Htags|].
  rewrite Hlen. unfold slice. split; intros Hmax.
  - destruct (Z.ltb_spec (maxItems (merge o)) 0); [lia|].
    rewrite length_take. lia.
  - destruct (Z.ltb_spec (maxItems (merge o)) 0); [lia|].
    rewrite length_take. destruct items0; [contradiction|]. cbn [length]. lia.
Qed.

(** X26. With a feed in the cache whose [by_ticker] is an object, a
    ticker that object has no entry for, or an empty list for, gets the
    empty state from [init] and the empty array from [getTickerNews];
    nothing is fetched. (The ticker is not one of the names every object
    inherits, such as [constructor]: for those the entry is the inherited
    function, not [undefined].) *)
Theorem no_news_is_the_empty_state containerId ticker o p members tickers :
  newsData p = object members ->
  own_property members "by_ticker" = object tickers ->
  inherited ticker = false ->
  own_property tickers ticker = undefined \/
  own_property tickers ticker = array [] ->
  is_Some (document p !! containerId) ->
  let p' := init network Date_time now containerId ticker o p in
  document p' !! containerId = Some (news_widget_empty ticker) /\
  requests p' = requests p /\
  getTickerNews network ticker p = (p, normal (array [])).
Proof.
  intros Hnews Hby _ Hfound [m0 Hm0] p'. subst p'.
  assert (Hhit : truthy (newsData p) = true) by (rewrite Hnews; reflexivity).
  assert (Hentry : ticker_entry (newsData p) ticker =
                   normal (own_property tickers ticker)).
  { unfold ticker_entry. rewrite Hnews. cbn [get and_then]. rewrite Hby.
    reflexivity. }
  assert (Hor : or_else (own_property tickers ticker) (array []) = array [])
    by (destruct Hfound as [-> | ->]; reflexivity).
  split; [|split].
  - rewrite (init_unfold _ _ _ _ m0 Hm0). cbv zeta.
    set (p1 := (set_innerHTML containerId renderLoading p).1).
    unfold bind at 1. rewrite ensure_newsData_hit by exact Hhit.
    unfold show, bind. rewrite by_ticker_of_entry.
    change (newsData p1) with (newsData p). rewrite Hentry.
    cbn [and_then]. rewrite Hor. cbn. apply lookup_insert_eq.
  - apply init_keeps; [| |exact Hhit]; intros ? ?; reflexivity.
  - unfold getTickerNews, bind. rewrite ensure_newsData_hit by exact Hhit.
    rewrite by_ticker_of_entry, Hentry. cbn [and_then]. rewrite Hor.
    reflexivity.
Qed.

(** X27. One item that cannot be rendered blanks the widget: if any of
    the items [init] is about to show makes the item template throw (a
    [null] item does), the container shows the error state and none of
    the other items, and the exception goes to the console. *)
Theorem bad_item_is_the_error_state containerId ticker o p items0 :
  truthy (newsData p) = true ->
  is_Some (document p !! containerId) ->
  ticker_entry (newsData p) ticker = normal (array items0) ->
  Exists (fun item => exists e, render_item Date_time now item = throw e)
         (slice items0 (maxItems (merge o))) ->
  let p' := init network Date_time now containerId ticker o p in
  document p' !! containerId = Some renderError /\
  exists e, console p' = console p ++ [component_error e].
Proof.
  intros Hhit [m0 Hm0] Hentry Hbad p'.
  assert (Hthrow : exists e,
            render_items Date_time now (slice items0 (maxItems (merge o)))
            = throw e).
  { induction Hbad as [item items [e He]|item items _ [e IH]]; cbn.
    - rewrite He. eauto.
    - destruct (render_item Date_time now item); cbn [and_then]; [|eauto].
      rewrite IH. eauto. }
  destruct Hthrow as [e He].
  assert (Hne : items0 <> []).
  { intros ->. unfold slice in He.
    destruct (maxItems (merge o) <? 0); rewrite take_nil in He;
      discriminate He. }
  assert (Hinit : p' =
    {| newsData := newsData p;
       document := <[containerId := renderError]>
                     (<[containerId := renderLoading]> (document p));
       requests := requests p;
       console := console p ++ [component_error e] |}).
  { subst p'. rewrite (init_unfold _ _ _ _ m0 Hm0). cbv zeta.
    set (p1 := (set_innerHTML containerId renderLoading p).1).
    unfold bind at 1. rewrite ensure_newsData_hit by exact Hhit.
    unfold show, bind. rewrite by_ticker_of_entry.
    change (newsData p1) with (newsData p). rewrite Hentry.
    cbn [and_then or_else truthy]. unfold lift at 1.
    destruct items0 as [|item items0]; [contradiction|].
    cbn [get String.eqb Ascii.eqb Bool.eqb length Z.of_nat].
    unfold lift, renderNews. rewrite He. reflexivity. }
  rewrite Hinit. cbn. split; [apply lookup_insert_eq | eauto].
Qed.

End NewsMore.

(** News witnesses: the feed in the cache, or an empty cache and a server
    that answers [null]. *)
Lemma filled_cache_is_used_witness :
  let p := {| NewsComponent.newsData := NewsComponent.feed;
              NewsComponent.document :=
                {[ "stock-news" := NewsComponent.news_widget_loading ]};
              NewsComponent.requests := ["data/news.json"];
              NewsComponent.console := [] |} in
  let after_init :=
    NewsComponent.init NewsComponent.flaky NewsComponent.time_value 7201000
      "stock-news" "INSM" NewsComponent.defaults p in
  NewsComponent.requests after_init = NewsComponent.requests p /\
  NewsComponent.newsData after_init = NewsComponent.newsData p /\
  (NewsComponent.getTickerNews NewsComponent.flaky "INSM" p).1 = p /\
  (NewsComponent.getAlerts NewsComponent.flaky p).1 = p.
Proof.
  intros p.
  apply (filled_cache_is_used NewsComponent.flaky NewsComponent.time_value
           7201000 "stock-news" "INSM" NewsComponent.defaults p).
  reflexivity.
Defined.

Lemma empty_cache_is_refilled_witness :
  let network := fun (_ : nat) (_ : string) =>
    NewsComponent.json_body null in
  let p := NewsComponent.start in
  let n := length (NewsComponent.requests p) in
  let url := NewsComponent.dataUrl NewsComponent.default_config in
  (NewsComponent.requests (NewsComponent.getTickerNews network "INSM" p).1 =
     NewsComponent.requests p ++ [url] /\
   NewsComponent.newsData (NewsComponent.getTickerNews network "INSM" p).1 =
     NewsComponent.cached (network n url) (NewsComponent.newsData p)) /\
  (NewsComponent.requests (NewsComponent.getAlerts network p).1 =
     NewsComponent.requests p ++ [url] /\
   NewsComponent.newsData (NewsComponent.getAlerts network p).1 =
     NewsComponent.cached (network n url) (NewsComponent.newsData p)) /\
  (is_Some (NewsComponent.document p !! "stock-news") ->
   let after_init :=
     NewsComponent.init network NewsComponent.time_value 0
       "stock-news" "INSM" NewsComponent.defaults p in
   NewsComponent.requests after_init =
     NewsComponent.requests p ++
     [NewsComponent.dataUrl (NewsComponent.merge NewsComponent.defaults)] /\
   NewsComponent.newsData after_init =
     NewsComponent.cached
       (network n
          (NewsComponent.dataUrl (NewsComponent.merge NewsComponent.defaults)))
       (NewsComponent.newsData p)).
Proof.
  intros network p.
  apply (empty_cache_is_refilled network NewsComponent.time_value 0
           "stock-news" "INSM" NewsComponent.defaults p).
  reflexivity.
Defined.

Lemma init_settles_witness :
  let shown :=
    NewsComponent.document
      (NewsComponent.init NewsComponent.flaky NewsComponent.time_value 0
         "stock-news" "INSM" NewsComponent.defaults NewsComponent.start)
      !! "stock-news" in
  shown = Some (NewsComponent.news_widget_empty "INSM") \/
  shown = Some NewsComponent.news_widget_error \/
  exists items, shown = Some (NewsComponent.news_widget items "INSM").
Proof.
  apply (init_settles NewsComponent.flaky NewsComponent.time_value 0
           "stock-news" "INSM" NewsComponent.defaults NewsComponent.start).
  simpl. rewrite lookup_singleton_eq. eexists. reflexivity.
Defined.

Lemma init_list_bounds_witness :
  let network := fun (_ : nat) (_ : string) =>
    NewsComponent.json_body NewsComponent.feed in
  let o := {| NewsComponent.opt_dataUrl := None;
              NewsComponent.opt_maxItems := Some 1 |} in
  let items :=
    [ {| NewsComponent.href := str "/a";
         NewsComponent.borderClass := "border-green-500";
         NewsComponent.sentiment_icon := NewsComponent.chart_increasing;
         NewsComponent.title := str "FDA approves";
         NewsComponent.publisher := str "Wire";
         NewsComponent.published_ago := "2h ago";
         NewsComponent.tags := [str "PDUFA"; str "NDA"] |} ] in
  "INSM" = "INSM" /\
  Forall (fun it => (length (NewsComponent.tags it) <= 2)%nat) items /\
  (0 <= NewsComponent.maxItems (NewsComponent.merge o) ->
   Z.of_nat (length items) <= NewsComponent.maxItems (NewsComponent.merge o))
  /\
  (1 <= NewsComponent.maxItems (NewsComponent.merge o) ->
   (1 <= length items)%nat).
Proof.
  intros network o items.
  apply (init_list_bounds network NewsComponent.time_value 7201000
           "stock-news" "INSM" o NewsComponent.start items "INSM").
  - simpl. rewrite lookup_singleton_eq. eexists. reflexivity.
  - vm_compute. reflexivity.
Defined.

(** The example feed has INSM only: CRNX has no entry. *)
Lemma no_news_is_the_empty_state_witness :
  let p := {| NewsComponent.newsData := NewsComponent.feed;
              NewsComponent.document :=
                {[ "stock-news" := NewsComponent.news_widget_loading ]};
              NewsComponent.requests := ["data/news.json"];
              NewsComponent.console := [] |} in
  let p' := NewsComponent.init NewsComponent.flaky NewsComponent.time_value 0
              "stock-news" "CRNX" NewsComponent.defaults p in
  NewsComponent.document p' !! "stock-news" =
    Some (NewsComponent.news_widget_empty "CRNX") /\
  NewsComponent.requests p' = NewsComponent.requests p /\
  NewsComponent.getTickerNews NewsComponent.flaky "CRNX" p =
    (p, normal (array [])).
Proof.
  intros p.
  eapply (no_news_is_the_empty_state NewsComponent.flaky
            NewsComponent.time_value 0 "stock-news" "CRNX"
            NewsComponent.defaults p).
  - reflexivity.
  - reflexivity.
  - reflexivity.
  - left. reflexivity.
  - simpl. rewrite lookup_singleton_eq. eexists. reflexivity.
Defined.

(** A feed whose second INSM item is [null]. *)
Lemma bad_item_is_the_error_state_witness :
  let good := object [("title", str "FDA approves")] in
  let p := {| NewsComponent.newsData :=
                object [("by_ticker",
                         object [("INSM", array [good; null])])];
              NewsComponent.document :=
                {[ "stock-news" := NewsComponent.news_widget_loading ]};
              NewsComponent.requests := ["data/news.json"];
              NewsComponent.console := [] |} in
  let p' := NewsComponent.init NewsComponent.flaky NewsComponent.time_value 0
              "stock-news" "INSM" NewsComponent.defaults p in
  NewsComponent.document p' !! "stock-news" =
    Some NewsComponent.renderError /\
  exists e,
    NewsComponent.console p' =
    NewsComponent.console p ++ [NewsComponent.component_error e].
Proof.
  intros good p.
  apply (bad_item_is_the_error_state NewsComponent.flaky
           NewsComponent.time_value 0 "stock-news" "INSM"
           NewsComponent.defaults p [good; null]).
  - reflexivity.
  - simpl. rewrite lookup_singleton_eq. eexists. reflexivity.
  - reflexivity.
  - simpl. right. left. exists TypeError. reflexivity.
Defined.

(** ** [timeAgo]: the numbers it prints *)

Section TimeAgoMore.
Import NewsComponent.

(** X28. For a valid date [timeAgo] prints "just now", or between 1 and 59
    minutes, or between 1 and 23 hours, or 1 or more days: never 0 of a
    unit, never 60 minutes or 24 hours. *)
Theorem timeAgo_printed_numbers (date now : Z) :
  timeAgo (Some date) now = "just now" \/
  (exists k, 1 <= k <= 59 /\ timeAgo (Some date) now = pretty k +:+ "m ago")
  \/
  (exists k, 1 <= k <= 23 /\ timeAgo (Some date) now = pretty k +:+ "h ago")
  \/
  (exists k, 1 <= k /\ timeAgo (Some date) now = pretty k +:+ "d ago").
Proof.
  rewrite timeAgo_seconds. cbv zeta.
  set (seconds := (now - date) / 1000).
  destruct (Z.ltb_spec seconds 60) as [H1|H1]; [left; reflexivity|].
  destruct (Z.ltb_spec seconds 3600) as [H2|H2].
  { right. left. exists (seconds / 60). split; [|reflexivity]. split.
    - apply Z.div_le_lower_bound; lia.
    - assert (seconds / 60 < 60) by (apply Z.div_lt_upper_bound; lia). lia. }
  destruct (Z.ltb_spec seconds 86400) as [H3|H3].
  { right. right. left. exists (seconds / 3600). split; [|reflexivity]. split.
    - apply Z.div_le_lower_bound; lia.
    - assert (seconds / 3600 < 24) by (apply Z.div_lt_upper_bound; lia).
      lia. }
  right. right. right. exists (seconds / 86400). split; [|reflexivity].
  apply Z.div_le_lower_bound; lia.
Qed.

End TimeAgoMore.

(** ** [pbsAuth]: the row of [updateProfile], and exceptions *)

Section PbsAuthMore.
Import PbsAuth.

Lemma own_property_set_eq (ms : list (string * value)) (k : string)
    (v : value) :
  own_property (set_property ms k v) k = v.
Proof.
  induction ms as [|[k0 v0] ms IH]; cbn.
  - rewrite String.eqb_refl. reflexivity.
  - destruct (String.eqb_spec k0 k) as [->|Hne]; cbn.
    + rewrite String.eqb_refl. reflexivity.
    + destruct (String.eqb_spec k0 k); [contradiction | exact IH].
Qed.

Lemma own_property_set_ne (ms : list (string * value)) (k k' : string)
    (v : value) :
  k <> k' -> own_property (set_property ms k v) k' = own_property ms k'.
Proof.
  intros Hne. induction ms as [|[k0 v0] ms IH]; cbn.
  - destruct (String.eqb_spec k k'); [contradiction | reflexivity].
  - destruct (String.eqb_spec k0 k) as [->|Hk]; cbn.
    + destruct (String.eqb_spec k k'); [contradiction | reflexivity].
    + destruct (String.eqb_spec k0 k'); [reflexivity | exact IH].
Qed.

(** A spread object's properties override, the others stay. *)
Lemma own_property_spread_absent (ms us : list (string * value))
    (k : string) :
  k ∉ us.*1 -> own_property (spread ms (object us)) k = own_property ms k.
Proof.
  cbn. revert ms. induction us as [|[k0 v0] us IH]; intros ms Hk; cbn.
  - reflexivity.
  - apply not_elem_of_cons in Hk as [Hne Hk]. cbn in Hne.
    rewrite IH by exact Hk. apply own_property_set_ne. congruence.
Qed.

Lemma own_property_spread_present (ms us : list (string * value))
    (k : string) (v : value) :
  NoDup us.*1 -> (k, v) ∈ us -> own_property (spread ms (object us)) k = v.
Proof.
  cbn. revert ms. induction us as [|[k0 v0] us IH]; intros ms Hnd Hin; cbn.
  - inversion Hin.
  - apply NoDup_cons in Hnd as [Hk0 Hnd]. cbn in Hk0.
    apply elem_of_cons in Hin as [[= -> ->]|Hin].
    + change (fold_left (fun acc kv => set_property acc kv.1 kv.2) us
                (set_property ms k0 v0))
        with (spread (set_property ms k0 v0) (object us)).
      rewrite own_property_spread_absent by exact Hk0.
      apply own_property_set_eq.
    + apply IH; assumption.
Qed.

(** X29. The row [updateProfile(userId, updates)] upserts always carries
    the current time as [updated_at], whatever [updates] says about it; it
    carries every other property of [updates] as given, an [id] included,
    which then replaces [userId]; without an [id] in [updates] (or with
    [updates] [null] or [undefined]) its [id] is [userId]. *)
Theorem updateProfile_row (c : client) (now : string)
    (userId updates : value) :
  updateProfile c now userId updates =
    and_then (from_upsert c "profiles"
                (object (profile_row now userId updates))) data_error /\
  own_property (profile_row now userId updates) "updated_at" = str now /\
  (forall us, updates = object us ->
     (NoDup us.*1 ->
      forall k v, (k, v) ∈ us -> k <> "updated_at" ->
                  own_property (profile_row now userId updates) k = v) /\
     ("id" ∉ us.*1 ->
      own_property (profile_row now userId updates) "id" = userId)) /\
  (nullish updates = true ->
   profile_row now userId updates =
     [("id", userId); ("updated_at", str now)]).
Proof.
  split; [reflexivity|]. split; [apply own_property_set_eq|]. split.
  - intros us ->. unfold profile_row. split.
    + intros Hnd k v Hin Hk.
      rewrite own_property_set_ne by congruence.
      apply own_property_spread_present; assumption.
    + intros Hid. rewrite own_property_set_ne by discriminate.
      rewrite own_property_spread_absent by exact Hid.
      reflexivity.
  - destruct updates; try discriminate; reflexivity.
Qed.

(** X30. The wrapper has no handler of its own: when the calls of the
    hosted client throw (their promises reject), every operation of the
    wrapper throws the same exception to its caller. *)
Theorem pbsAuth_rethrows (c : client) (e : exn) (origin now : string)
    (op : operation) :
  client_throws c e -> call c origin now op = throw e.
Proof.
  intros (HgetUser & HgetSession & HsignUp & HsignIn & HsignOut & Hreset &
          Hupdate & Hselect & Hupsert).
  destruct op; cbn [call].
  - unfold getUser. rewrite HgetUser. reflexivity.
  - unfold getSession. rewrite HgetSession. reflexivity.
  - unfold signUp. rewrite HsignUp. reflexivity.
  - unfold signIn. rewrite HsignIn. reflexivity.
  - unfold signOut. rewrite HsignOut. reflexivity.
  - unfold resetPassword. rewrite Hreset. reflexivity.
  - unfold updatePassword. rewrite Hupdate. reflexivity.
  - unfold isAuthenticated, getSession. rewrite HgetSession. reflexivity.
  - unfold getProfile. rewrite Hselect. reflexivity.
  - unfold updateProfile. rewrite Hupsert. reflexivity.
Qed.

End PbsAuthMore.

Lemma pbsAuth_rethrows_witness :
  PbsAuth.call PbsAuth.offline "https://powersbiostrikes.com"
    "2026-01-06T10:00:00.000Z" PbsAuth.op_isAuthenticated = throw TypeError.
Proof.
  apply (pbsAuth_rethrows PbsAuth.offline TypeError).
  unfold PbsAuth.client_throws. simpl. repeat split.
Defined.
